(** * The tabular data editor: the editor widget, its key handler and its
      editable model, embedded from [src/widget.ts], [src/keyhandler.ts] and
      [src/model.ts].

    JavaScript numbers that hold row and column positions are integers ([Z]);
    a local that may still be [undefined] (or [NaN]) is a [jsnum].  Strings
    are [string]s, one character per code unit.  An exception that escapes a
    method is [None] in the option monad.

    The widget works on two classes that are not among the sources: the
    store ([./litestore]), which is modelled after the specification's
    Transaction Log, and the editor model ([EditorModel] of [./model]), whose
    methods are an interface here, with one instance after the
    specification's Edit Engine.

    The title class, the column header, the URI fragment and the getter of
    the earlier model work on strings alone and are embedded in full, but for
    [numberToCharacter] of [./_helper], which is a parameter. *)

From stdpp Require Import gmap strings list fin_maps pretty.
From Stdlib Require Import ZArith Lia.
From Stdlib Require Ascii String.

Local Open Scope Z_scope.

(** ** JavaScript strings and numbers *)

Module JsString.

Definition CR : Ascii.ascii := Ascii.ascii_of_nat 13.
Definition LF : Ascii.ascii := Ascii.ascii_of_nat 10.

(** [s.slice(0, n)] *)
Fixpoint slice_to (n : nat) (s : string) : string :=
  match n, s with
  | S n', String c s' => String c (slice_to n' s')
  | _, _ => EmptyString
  end.

(** [s.indexOf(c)], counting from position [i] of the enclosing string;
    [-1] when [c] does not occur. *)
Fixpoint indexOf_from (c : Ascii.ascii) (s : string) (i : Z) : Z :=
  match s with
  | EmptyString => -1
  | String d s' => if Ascii.eqb d c then i else indexOf_from c s' (i + 1)
  end.

Definition indexOf (c : Ascii.ascii) (s : string) : Z := indexOf_from c s 0.

(** [s[i]]: [None] is [undefined]. *)
Definition charAt (s : string) (i : Z) : option Ascii.ascii :=
  if i <? 0 then None else String.get (Z.to_nat i) s.

End JsString.

(** A number-typed local: [None] is [undefined] or [NaN]. *)
Definition jsnum : Type := option Z.

Definition jsadd (a b : jsnum) : jsnum := x ← a; y ← b; Some (x + y).
Definition jssub (a b : jsnum) : jsnum := x ← a; y ← b; Some (x - y).
Definition jsabs (a : jsnum) : jsnum := x ← a; Some (Z.abs x).

(** ** The grid library's types ([@lumino/datagrid], [@lumino/datastore]) *)

Module DataModel.

Inductive CellRegion : Type :=
| body | row_header | column_header | corner_header.

(** [DataModel.ChangedArgs], one constructor per [type] tag. *)
Inductive ChangedArgs : Type :=
| rows_inserted (region : CellRegion) (index span : Z)
| rows_removed (region : CellRegion) (index span : Z)
| columns_inserted (region : CellRegion) (index span : Z)
| columns_removed (region : CellRegion) (index span : Z)
| rows_moved (region : CellRegion) (index span destination : Z)
| columns_moved (region : CellRegion) (index span destination : Z)
| cells_changed (region : CellRegion) (row column rowSpan columnSpan : Z)
| model_reset.

(** [(change as RowsMovedArgs).destination]: the cast is unchecked, so the
    field is read from whatever the change is. *)
Definition destination (change : ChangedArgs) : jsnum :=
  match change with
  | rows_moved _ _ _ d | columns_moved _ _ _ d => Some d
  | _ => None
  end.

End DataModel.

Module SelectionModel.

(** [SelectionModel.Selection] *)
Record Selection : Type := { r1 : Z; c1 : Z; r2 : Z; c2 : Z }.

End SelectionModel.

Module ListField.

(** [ListField.Update<number>] *)
Record Update : Type := { index : Z; remove : Z; values : list Z }.

End ListField.

(** [MapField.Update<string>]: a key bound to [None] is removed. *)
Abbreviation MapUpdate := (gmap string (option string)).

(** ** The types of the [DSVEditor] namespace *)

Module Types.

(** [DSVEditor.Commands], one constructor per tag: ['insert-rows-above'] is
    [InsertRowsAbove], and so on. *)
Inductive Commands : Type :=
| Init | InsertRowsAbove | InsertRowsBelow | InsertColumnsRight
| InsertColumnsLeft | RemoveRows | RemoveColumns | MoveRows
| MoveColumns | ClearCells | ClearRows | ClearColumns | CutCells
| CopyCells | PasteCells | Undo | Redo | Save.

(** [DSVEditor.GridState] *)
Record GridState : Type := {
  currentRows : Z;
  currentColumns : Z;
  nextChange : DataModel.ChangedArgs;
  nextCommand : option Commands
}.

(** [DSVEditor.ModelChangedArgs]; an optional property that is missing is
    [None]. *)
Record ModelChangedArgs : Type := {
  rowUpdate : option ListField.Update;
  columnUpdate : option ListField.Update;
  valueUpdate : option MapUpdate;
  gridStateUpdate : option GridState;
  type : option string;
  selection : option SelectionModel.Selection
}.

Definition NULL_NUM_SPLICE : ListField.Update :=
  {| ListField.index := 0; ListField.remove := 0; ListField.values := [] |}.

End Types.

(** ** The transaction log *)

Module Litestore.

(** The fields of the one record of [DATAMODEL_SCHEMA] (widget.ts); its
    [type] field is never written and is left out. *)
Record Fields : Type := {
  rowMap : list Z;
  columnMap : list Z;
  valueMap : gmap string string;
  selection : option SelectionModel.Selection;
  gridState : option Types.GridState
}.

(** The argument [updateModel] passes to [updateRecord]. *)
Record RecordUpdate : Type := {
  rowMapUpdate : ListField.Update;
  columnMapUpdate : ListField.Update;
  valueMapUpdate : option MapUpdate;
  selectionUpdate : option SelectionModel.Selection;
  gridStateUpdate : option Types.GridState
}.

(** Modelled from the spec: the index splice of a Patch, "position,
    removed-count, inserted-keys"; [./litestore] is not among the sources.
    The removed keys themselves are kept, as the inverse has to put them
    back "including key identities". *)
Record IndexSplice : Type := {
  position : nat;
  removedKeys : list Z;
  insertedKeys : list Z
}.

(** Modelled from the spec: a Transaction, the committed Patch (row splice,
    column splice, overlay cell changes with old and new value per key).
    The selection and the command tag are registers of the record
    ([DATAMODEL_SCHEMA]), so the transaction carries each register's previous
    and current value. *)
Record Transaction : Type := {
  rowSplice : IndexSplice;
  columnSplice : IndexSplice;
  cellsBefore : MapUpdate;
  cellsAfter : MapUpdate;
  selectionPrev : option SelectionModel.Selection;
  selectionCur : option SelectionModel.Selection;
  gridStatePrev : option Types.GridState;
  gridStateCur : option Types.GridState
}.

(** Modelled from the spec: Index Map [splice] on a key sequence, "removes
    removeCount keys starting at position, inserts insertedKeys there". *)
Definition spliceKeys (l : list Z) (pos n : nat) (ins : list Z) : list Z :=
  take pos l ++ ins ++ drop (pos + n) l.

(** Modelled from the spec: the overlay changes of a patch applied to the
    Value Overlay; a key bound to [None] becomes absent. *)
Definition applyCells (u : MapUpdate) (m : gmap string string)
  : gmap string string :=
  merge (λ ou ov, match ou with Some x => x | None => ov end) u m.

(** Modelled from the spec: the forward patch of a transaction. *)
Definition forward (t : Transaction) (r : Fields) : Fields :=
  {| rowMap := spliceKeys (rowMap r) (position (rowSplice t))
                 (length (removedKeys (rowSplice t)))
                 (insertedKeys (rowSplice t));
     columnMap := spliceKeys (columnMap r) (position (columnSplice t))
                    (length (removedKeys (columnSplice t)))
                    (insertedKeys (columnSplice t));
     valueMap := applyCells (cellsAfter t) (valueMap r);
     selection := selectionCur t;
     gridState := gridStateCur t |}.

(** Modelled from the spec: the inverse patch of a transaction. *)
Definition inverse (t : Transaction) (r : Fields) : Fields :=
  {| rowMap := spliceKeys (rowMap r) (position (rowSplice t))
                 (length (insertedKeys (rowSplice t)))
                 (removedKeys (rowSplice t));
     columnMap := spliceKeys (columnMap r) (position (columnSplice t))
                    (length (insertedKeys (columnSplice t)))
                    (removedKeys (columnSplice t));
     valueMap := applyCells (cellsBefore t) (valueMap r);
     selection := selectionPrev t;
     gridState := gridStatePrev t |}.

(** Modelled from the spec: [splice] "fails with RangeError if position or
    position+removeCount falls outside [0, length]"; [None] is the error. *)
Definition splice (l : list Z) (u : ListField.Update) : option IndexSplice :=
  if decide (0 ≤ ListField.index u ∧ 0 ≤ ListField.remove u
             ∧ ListField.index u + ListField.remove u ≤ Z.of_nat (length l))
  then Some {| position := Z.to_nat (ListField.index u);
               removedKeys := take (Z.to_nat (ListField.remove u))
                                (drop (Z.to_nat (ListField.index u)) l);
               insertedKeys := ListField.values u |}
  else None.

(** Modelled from the spec: the patch of one record update against the
    current fields, with the old value of every overlay key it writes. *)
Definition transactionOf (u : RecordUpdate) (r : Fields)
  : option Transaction :=
  rs ← splice (rowMap r) (rowMapUpdate u);
  cs ← splice (columnMap r) (columnMapUpdate u);
  let cells := default ∅ (valueMapUpdate u) in
  Some {| rowSplice := rs;
          columnSplice := cs;
          cellsBefore := map_imap (λ k _, Some (valueMap r !! k)) cells;
          cellsAfter := cells;
          selectionPrev := selection r;
          selectionCur := selectionUpdate u;
          gridStatePrev := gridState r;
          gridStateCur := gridStateUpdate u |}.

(** The store: the record and [transactionStore.undoStack] / [redoStack],
    the top of each stack first. *)
Record t : Type := {
  record : Fields;
  undoStack : list Transaction;
  redoStack : list Transaction
}.

(** [new Litestore({ id: 0, schemas: [DATAMODEL_SCHEMA] })] *)
Definition empty : t :=
  {| record := {| rowMap := []; columnMap := []; valueMap := ∅;
                  selection := None; gridState := None |};
     undoStack := []; redoStack := [] |}.

(** [getRecord] *)
Definition getRecord (s : t) : Fields := record s.

(** Modelled from the spec: [commit], "push to undo stack; clear redo
    stack"; the widget reaches it as [beginTransaction(); updateRecord(..);
    endTransaction()]. *)
Definition commit (u : RecordUpdate) (s : t) : option t :=
  tx ← transactionOf u (record s);
  Some {| record := forward tx (record s);
          undoStack := tx :: undoStack s;
          redoStack := [] |}.

(** Modelled from the spec: [undo], "fails (no-op) if undo stack has only
    the sentinel initial transaction; otherwise pop from undo stack, push to
    redo stack", applying the inverse patch. *)
Definition undo (s : t) : t :=
  match undoStack s with
  | tx :: (_ :: _) as rest =>
      {| record := inverse tx (record s);
         undoStack := rest;
         redoStack := tx :: redoStack s |}
  | _ => s
  end.

(** Modelled from the spec: [redo], "fails (no-op) if redo stack empty;
    otherwise pop from redo stack, push back to undo stack", applying the
    forward patch. *)
Definition redo (s : t) : t :=
  match redoStack s with
  | tx :: rest =>
      {| record := forward tx (record s);
         undoStack := tx :: undoStack s;
         redoStack := rest |}
  | [] => s
  end.

(** The transactions of an undo stack can be taken back one after the
    other from the record [r], each one restoring what it had changed. *)
Fixpoint undoable (stack : list Transaction) (r : Fields) : Prop :=
  match stack with
  | [] => True
  | tx :: rest => forward tx (inverse tx r) = r ∧ undoable rest (inverse tx r)
  end.

(** The transactions of a redo stack can be replayed one after the other
    from the record [r]. *)
Fixpoint redoable (stack : list Transaction) (r : Fields) : Prop :=
  match stack with
  | [] => True
  | tx :: rest => inverse tx (forward tx r) = r ∧ redoable rest (forward tx r)
  end.

(** A store whose stacks fit its record, and whose undo stack holds the
    sentinel. *)
Definition consistent (s : t) : Prop :=
  undoStack s ≠ [] ∧ undoable (undoStack s) (record s)
  ∧ redoable (redoStack s) (record s).

(** One call of the store, or none. *)
Definition storeStep (s s' : t) : Prop :=
  s' = s ∨ (∃ u, commit u s = Some s') ∨ s' = undo s ∨ s' = redo s.

End Litestore.

(** ** The editor model, as the widget and the key handler use it *)

Module EditorModel.

(** The object literal [{ r1, r2, c1, c2 }] handed to [clearCells]; a bound
    is [undefined] when the command was issued without a selection. *)
Record Range : Type := { r1 : jsnum; r2 : jsnum; c1 : jsnum; c2 : jsnum }.

Definition rangeOf (s : SelectionModel.Selection) : Range :=
  {| r1 := Some (SelectionModel.r1 s); r2 := Some (SelectionModel.r2 s);
     c1 := Some (SelectionModel.c1 s); c2 := Some (SelectionModel.c2 s) |}.

(** What a call of an editing method leaves behind: the model, the update
    it returns for the store ([null] is [None]) and the change events it sent
    to the grid on the way. *)
Record Result (M : Type) : Type := {
  model : M;
  update : option Types.ModelChangedArgs;
  changed : list DataModel.ChangedArgs
}.
Arguments model {M} _.
Arguments update {M} _.
Arguments changed {M} _.

(** The methods of [EditorModel] that [widget.ts] and [keyhandler.ts] call.
    The class itself ([./model] as the widget imports it) is not among the
    sources, so its methods are the operations of an interface over the
    model's state [M]; each editing method is given the store's record, which
    the model reads. *)
Class Ops (M : Type) : Type := {
  totalRows : M → Z;
  totalColumns : M → Z;
  addRows : DataModel.CellRegion → jsnum → Z → Litestore.Fields → M → Result M;
  addColumns :
    DataModel.CellRegion → jsnum → Z → Litestore.Fields → M → Result M;
  removeRows :
    DataModel.CellRegion → jsnum → Z → Litestore.Fields → M → Result M;
  removeColumns :
    DataModel.CellRegion → jsnum → Z → Litestore.Fields → M → Result M;
  cut : DataModel.CellRegion → jsnum → jsnum → jsnum → jsnum →
        Litestore.Fields → M → Result M;
  copy : DataModel.CellRegion → jsnum → jsnum → jsnum → jsnum →
         Litestore.Fields → M → M;
  paste : DataModel.CellRegion → jsnum → jsnum → option string →
          Litestore.Fields → M → Result M;
  clearCells :
    DataModel.CellRegion → option Range → Litestore.Fields → M → Result M;
  clearRows :
    DataModel.CellRegion → jsnum → jsnum → Litestore.Fields → M → Result M;
  clearColumns :
    DataModel.CellRegion → jsnum → jsnum → Litestore.Fields → M → Result M;
  emitOppositeChange :
    option Types.GridState → M → M * list DataModel.ChangedArgs;
  emitCurrentChange :
    DataModel.ChangedArgs → M → M * list DataModel.ChangedArgs
}.

End EditorModel.

(** ** The editor widget ([DSVEditor], widget.ts) *)

Module DSVEditor.

Import Types.

(** What the editor has done so far, oldest first: the transactions it
    committed (with the [type] of their update), undid and redid, the saves
    it completed, and the change events the model sent to the grid. *)
Inductive Entry : Type :=
| Committed (type : option string)
| Undone
| Redone
| Saved
| Emitted (change : DataModel.ChangedArgs).

(** What one entry of the history does to the dirty flag. *)
Definition track (d : bool) (x : Entry) : bool :=
  match x with
  | Committed ty => if decide (ty = Some "init"%string) then d else true
  | Saved => false
  | _ => d
  end.

Section Editor.

Context {M : Type} `{EditorModel.Ops M}.

(** The widget once a data model is installed: [_litestore], the selections
    of [_grid.selectionModel] (the current one last), [_dirty],
    [_grid.dataModel] and the history above.  The title's class list, the
    renderers and the context-menu elements are outside the model. *)
Record t : Type := {
  litestore : Litestore.t;
  selections : list SelectionModel.Selection;
  dirty : bool;
  dataModel : M;
  log : list Entry
}.

Definition setLitestore (s : Litestore.t) (e : t) : t :=
  {| litestore := s; selections := selections e; dirty := dirty e;
     dataModel := dataModel e; log := log e |}.

Definition setSelections (l : list SelectionModel.Selection) (e : t) : t :=
  {| litestore := litestore e; selections := l; dirty := dirty e;
     dataModel := dataModel e; log := log e |}.

Definition setDataModel (m : M) (e : t) : t :=
  {| litestore := litestore e; selections := selections e; dirty := dirty e;
     dataModel := m; log := log e |}.

Definition record (entries : list Entry) (e : t) : t :=
  {| litestore := litestore e; selections := selections e; dirty := dirty e;
     dataModel := dataModel e; log := log e ++ entries |}.

(** [set dirty(dirty)]: the flag; the [DIRTY_CLASS] it toggles on the title
    is not modelled. *)
Definition set_dirty (d : bool) (e : t) : t :=
  {| litestore := litestore e; selections := selections e; dirty := d;
     dataModel := dataModel e; log := log e |}.

(** [_grid.selectionModel.currentSelection()]: the last selection made. *)
Definition currentSelection (e : t) : option SelectionModel.Selection :=
  last (selections e).

(** [getSelectedRange]: [toArray(selections())[0]]. *)
Definition getSelectedRange (e : t) : option SelectionModel.Selection :=
  head (selections e).

(** [get rowsSelected] *)
Definition rowsSelected (e : t) : Z :=
  match currentSelection e with
  | None => 0
  | Some s => Z.abs (SelectionModel.r2 s - SelectionModel.r1 s) + 1
  end.

(** [get columnsSelected] *)
Definition columnsSelected (e : t) : Z :=
  match currentSelection e with
  | None => 0
  | Some s => Z.abs (SelectionModel.c2 s - SelectionModel.c1 s) + 1
  end.

(** The object literal [{ r1, r2, c1, c2 }] as a selection, when all four
    bounds are numbers. *)
Definition mkSelection (r1 r2 c1 c2 : jsnum)
  : option SelectionModel.Selection :=
  a ← r1; b ← r2; c ← c1; d ← c2;
  Some {| SelectionModel.r1 := a; SelectionModel.c1 := c;
          SelectionModel.r2 := b; SelectionModel.c2 := d |}.

(** Modelled from the spec: [PaintedGrid.selectCells] ([./grid] is not among
    the sources).  The Selection Tracker "restores the prior selection": the
    range given becomes the only, current selection; a call without a range of
    four numbers leaves the selection model as it is. *)
Definition selectCells (sel : option SelectionModel.Selection) (e : t) : t :=
  match sel with
  | Some s => setSelections [s] e
  | None => e
  end.

(** The effect of one model call on the editor: the model it leaves and the
    events it sent. *)
Definition absorb (r : EditorModel.Result M) (e : t) : t :=
  record (Emitted <$> EditorModel.changed r)
    (setDataModel (EditorModel.model r) e).

(** [updateModel]: the recomputation of the column metadata at its end only
    concerns rendering and is left out. *)
Definition updateModel (update : option ModelChangedArgs) (e : t)
  : option t :=
  match update with
  | Some update =>
      let selection :=
        match selection update with
        | Some s => Some s
        | None => currentSelection e
        end in
      store ← Litestore.commit
        {| Litestore.rowMapUpdate :=
             default NULL_NUM_SPLICE (rowUpdate update);
           Litestore.columnMapUpdate :=
             default NULL_NUM_SPLICE (columnUpdate update);
           Litestore.valueMapUpdate := valueUpdate update;
           Litestore.selectionUpdate := selection;
           Litestore.gridStateUpdate := gridStateUpdate update |}
        (litestore e);
      let e := record [Committed (type update)] (setLitestore store e) in
      if decide (type update = Some "init"%string) then Some e
      else Some (set_dirty true e)
  | None => Some e
  end.

(** [_onModelSignal] *)
Definition onModelSignal (args : option ModelChangedArgs) (e : t)
  : option t :=
  updateModel args e.

(** [save]: the new file text goes to the document context, which is outside
    the model; the flag is reset once the save has been issued. *)
Definition save (e : t) : t := set_dirty false (record [Saved] e).

(** The end of [_onCommand], after the [switch]: tag the update with the
    command and the selection it was issued on, move the grid's selection,
    and commit. *)
Definition afterSwitch (command : Commands)
    (selection : option SelectionModel.Selection)
    (r : EditorModel.Result M) (r1 r2 c1 c2 : jsnum) (e : t) : option t :=
  let e := absorb r e in
  match EditorModel.update r with
  | Some u =>
      gs ← gridStateUpdate u;
      let u' :=
        {| rowUpdate := rowUpdate u; columnUpdate := columnUpdate u;
           valueUpdate := valueUpdate u;
           gridStateUpdate :=
             Some {| currentRows := currentRows gs;
                     currentColumns := currentColumns gs;
                     nextChange := nextChange gs;
                     nextCommand := Some command |};
           type := type u;
           selection := selection |} in
      updateModel (Some u') (selectCells (mkSelection r1 r2 c1 c2) e)
  | None => updateModel None e
  end.

(** The selection [redo] restores, from the recorded one, the command tag
    and change of the transaction redone, and the spans of the selection that
    was current when [redo] was invoked. *)
Definition redoSelection (command : option Commands)
    (gridChange : DataModel.ChangedArgs) (rowSpan colSpan : Z)
    (s : SelectionModel.Selection) : option SelectionModel.Selection :=
  let r1 := Some (SelectionModel.r1 s) in
  let r2 := Some (SelectionModel.r2 s) in
  let c1 := Some (SelectionModel.c1 s) in
  let c2 := Some (SelectionModel.c2 s) in
  match command with
  | Some InsertRowsBelow =>
      mkSelection (jsadd r1 (Some rowSpan)) (jsadd r2 (Some rowSpan)) c1 c2
  | Some InsertColumnsRight =>
      mkSelection r1 r2 (jsadd c1 (Some colSpan)) (jsadd c2 (Some colSpan))
  | Some MoveRows =>
      mkSelection (DataModel.destination gridChange)
        (DataModel.destination gridChange) c1 c2
  | Some MoveColumns =>
      mkSelection r1 r2 (DataModel.destination gridChange)
        (DataModel.destination gridChange)
  | _ => mkSelection r1 r2 c1 c2
  end.

(** [_onCommand] *)
Definition onCommand (command : Commands) (e : t) : option t :=
  let selection := currentSelection e in
  let rowSpan := rowsSelected e in
  let colSpan := columnsSelected e in
  let r1 : jsnum :=
    (λ s, Z.min (SelectionModel.r1 s) (SelectionModel.r2 s)) <$> selection in
  let r2 : jsnum :=
    (λ s, Z.max (SelectionModel.r1 s) (SelectionModel.r2 s)) <$> selection in
  let c1 : jsnum :=
    (λ s, Z.min (SelectionModel.c1 s) (SelectionModel.c2 s)) <$> selection in
  let c2 : jsnum :=
    (λ s, Z.max (SelectionModel.c1 s) (SelectionModel.c2 s)) <$> selection in
  let fields := Litestore.getRecord (litestore e) in
  let m := dataModel e in
  let finish := afterSwitch command selection in
  match command with
  | InsertRowsAbove =>
      finish (EditorModel.addRows DataModel.body r1 rowSpan fields m)
        r1 r2 c1 c2 e
  | InsertRowsBelow =>
      finish
        (EditorModel.addRows DataModel.body (jsadd r2 (Some 1)) rowSpan
           fields m)
        (jsadd r1 (Some rowSpan)) (jsadd r2 (Some rowSpan)) c1 c2 e
  | InsertColumnsLeft =>
      finish (EditorModel.addColumns DataModel.body c1 colSpan fields m)
        r1 r2 c1 c2 e
  | InsertColumnsRight =>
      finish
        (EditorModel.addColumns DataModel.body (jsadd c2 (Some 1)) colSpan
           fields m)
        r1 r2 (jsadd c1 (Some colSpan)) (jsadd c2 (Some colSpan)) e
  | RemoveRows =>
      finish (EditorModel.removeRows DataModel.body r1 rowSpan fields m)
        r1 r2 c1 c2 e
  | RemoveColumns =>
      finish (EditorModel.removeColumns DataModel.body c1 colSpan fields m)
        r1 r2 c1 c2 e
  | CutCells =>
      finish (EditorModel.cut DataModel.body r1 c1 r2 c2 fields m)
        r1 r2 c1 c2 e
  | CopyCells =>
      updateModel None
        (setDataModel (EditorModel.copy DataModel.body r1 c1 r2 c2 fields m)
           e)
  | PasteCells =>
      finish (EditorModel.paste DataModel.body r1 c1 None fields m)
        r1 r2 c1 c2 e
  | ClearCells =>
      finish
        (EditorModel.clearCells DataModel.body
           (Some {| EditorModel.r1 := r1; EditorModel.r2 := r2;
                    EditorModel.c1 := c1; EditorModel.c2 := c2 |})
           fields m)
        r1 r2 c1 c2 e
  | ClearRows =>
      let rowSpan := jsadd (jsabs (jssub r1 r2)) (Some 1) in
      finish (EditorModel.clearRows DataModel.body r1 rowSpan fields m)
        r1 r2 c1 c2 e
  | ClearColumns =>
      let columnSpan := jsadd (jsabs (jssub c1 c2)) (Some 1) in
      finish (EditorModel.clearColumns DataModel.body c1 columnSpan fields m)
        r1 r2 c1 c2 e
  | Undo =>
      if decide (length (Litestore.undoStack (litestore e)) = 1%nat)
      then Some e
      else
        let gridState := Litestore.gridState fields in
        let selection := Litestore.selection fields in
        let e := setLitestore (Litestore.undo (litestore e)) e in
        let e := record [Undone] e in
        let '(m, evs) := EditorModel.emitOppositeChange gridState m in
        let e := record (Emitted <$> evs) (setDataModel m e) in
        updateModel None (selectCells selection e)
  | Redo =>
      if decide (length (Litestore.redoStack (litestore e)) = 0%nat)
      then Some e
      else
        let e := setLitestore (Litestore.redo (litestore e)) e in
        let e := record [Redone] e in
        let fields := Litestore.getRecord (litestore e) in
        gridState ← Litestore.gridState fields;
        let '(m, evs) :=
          EditorModel.emitCurrentChange (nextChange gridState) m in
        let e := record (Emitted <$> evs) (setDataModel m e) in
        match Litestore.selection fields with
        | None => updateModel None e
        | Some s =>
            updateModel None
              (selectCells
                 (redoSelection (nextCommand gridState)
                    (nextChange gridState) rowSpan colSpan s)
                 e)
        end
  | Save => updateModel None (save e)
  | Init | MoveRows | MoveColumns => updateModel None e
  end.

(** [_handlePaste]: without a selection the destructuring of
    [getSelectedRange()] throws. *)
Definition handlePaste (copiedText : string) (e : t) : option t :=
  s ← getSelectedRange e;
  let row := Z.min (SelectionModel.r1 s) (SelectionModel.r2 s) in
  let column := Z.min (SelectionModel.c1 s) (SelectionModel.c2 s) in
  let r :=
    EditorModel.paste DataModel.body (Some row) (Some column)
      (Some copiedText) (Litestore.getRecord (litestore e)) (dataModel e) in
  updateModel (EditorModel.update r) (absorb r e).

(** [RichKeyHandler.onDelete] (keyhandler.ts): the update of [clearCells]
    goes out on [onChangedSignal], whose slot is [_onModelSignal]. *)
Definition onDelete (e : t) : option t :=
  let selection := currentSelection e in
  let r :=
    EditorModel.clearCells DataModel.body (EditorModel.rangeOf <$> selection)
      (Litestore.getRecord (litestore e)) (dataModel e) in
  onModelSignal (EditorModel.update r) (absorb r e).

(** The first update of [_updateGrid], which fills the row and column maps
    and is tagged [init]. *)
Definition initUpdate (m : M) : ModelChangedArgs :=
  {| rowUpdate :=
       Some {| ListField.index := 0; ListField.remove := 0;
               ListField.values := seqZ 0 (EditorModel.totalRows m) |};
     columnUpdate :=
       Some {| ListField.index := 0; ListField.remove := 0;
               ListField.values := seqZ 0 (EditorModel.totalColumns m) |};
     valueUpdate := None;
     gridStateUpdate := None;
     type := Some "init"%string;
     selection := None |}.

(** [_updateGrid], with [m] the model it would construct; the widget is
    [None] until a data model is installed, and the method bails out when one
    is. *)
Definition updateGrid (m : M) (w : option t) : option t :=
  match w with
  | Some e => Some e
  | None =>
      updateModel (Some (initUpdate m))
        {| litestore := Litestore.empty; selections := []; dirty := false;
           dataModel := m; log := [] |}
  end.

(** What can happen to an installed editor: a command, a paste event, the
    delete key, a signal of the model, a change of the selection made through
    the grid, and the end of context activity. *)
Inductive Action : Type :=
| Command (command : Commands)
| Paste (copiedText : string)
| DeleteKey
| ModelSignal (args : option ModelChangedArgs)
| Select (l : list SelectionModel.Selection)
| ActivityStopped.

Definition perform (a : Action) (e : t) : option t :=
  match a with
  | Command c => onCommand c e
  | Paste text => handlePaste text e
  | DeleteKey => onDelete e
  | ModelSignal args => onModelSignal args e
  | Select l => Some (setSelections l e)
  | ActivityStopped => updateGrid (dataModel e) (Some e)
  end.

(** The editors a session can be in. *)
Inductive reachable : t → Prop :=
| reachable_load m e : updateGrid m None = Some e → reachable e
| reachable_step a e e' :
    reachable e → perform a e = Some e' → reachable e'.

(** [_guessRowDelimeter] *)
Definition guessRowDelimeter (data : string) : string :=
  let i := JsString.indexOf JsString.CR
             (JsString.slice_to (Z.to_nat 5000) data) in
  if i =? -1 then String JsString.LF EmptyString
  else if decide (JsString.charAt data (i + 1) = Some JsString.LF)
       then String JsString.CR (String JsString.LF EmptyString)
       else String JsString.CR EmptyString.

(** A session: the document is loaded with the model [m], then the actions
    happen one after the other. *)
Definition session (m : M) (acts : list Action) : option t :=
  foldl (λ w a, e ← w; perform a e) (updateGrid m None) acts.

(** What a step of the editor may do to the store, the history and the
    flag. *)
Definition summary (e e' : t) : Prop :=
  Litestore.storeStep (litestore e) (litestore e')
  ∧ ∃ entries, log e' = log e ++ entries
               ∧ dirty e' = foldl track (dirty e) entries.

End Editor.

Arguments t M : clear implicits.

(** The entries one action may add to the history: nothing, a completed
    save, or one committed, undone or redone transaction together with one
    change event. *)
Inductive oneEventPerTransaction : list Entry → Prop :=
| step_nothing : oneEventPerTransaction []
| step_saved : oneEventPerTransaction [Saved]
| step_committed change ty :
    oneEventPerTransaction [Emitted change; Committed ty]
| step_undone change : oneEventPerTransaction [Undone; Emitted change]
| step_redone change : oneEventPerTransaction [Redone; Emitted change].

End DSVEditor.

(** ** The earlier editable model ([EditableDSVModel], model.ts) *)

Module EditableDSVModel.

Section Model.

(** [DSVModel] of [@jupyterlab/csvviewer] is a library class; what
    [EditableDSVModel] reaches into is its [_header], its [_setField] and its
    [data]. *)
Context {D : Type}.
Variable header : D → list string.
Variable setField : Z → Z → string → D → D.
Variable dsvData : DataModel.CellRegion → Z → Z → D → string.

(** The model: [_dsvModel] and the events it has sent through
    [emitChanged], oldest first. *)
Record t : Type := {
  dsvModel : D;
  changed : list DataModel.ChangedArgs
}.

(** [data] *)
Definition data (region : DataModel.CellRegion) (row column : Z) (m : t)
  : string :=
  dsvData region row column (dsvModel m).

(** [setData]: [None] is the [throw 'unreachable'] of the [default] case. *)
Definition setData (region : DataModel.CellRegion) (row column : Z)
    (value : string) (m : t) : option (bool * t) :=
  match region with
  | DataModel.body =>
      let d :=
        if decide (length (header (dsvModel m)) = 0%nat)
        then setField row column value (dsvModel m)
        else setField (row + 1) column value (dsvModel m) in
      Some (true,
            {| dsvModel := d;
               changed :=
                 changed m ++ [DataModel.cells_changed DataModel.body
                                 row column 1 1] |})
  | _ => None
  end.

End Model.

Arguments t D : clear implicits.

End EditableDSVModel.

(** ** The contract of the editor model's change events *)

Module Contract.

Import Types.

(** An editing method sends the grid exactly the change it stores as
    [nextChange] of the update it returns, and nothing when it returns no
    update. *)
Definition emitsOnce {M : Type} (r : EditorModel.Result M) : Prop :=
  match EditorModel.update r with
  | Some u =>
      ∃ gs, gridStateUpdate u = Some gs
            ∧ EditorModel.changed r = [nextChange gs]
  | None => EditorModel.changed r = []
  end.

(** Modelled from the spec: "the core emits one structured change event per
    committed/undone/redone transaction, describing the affected region", as
    a law of the methods of [EditorModel], which are not among the sources. *)
Class Laws (M : Type) `{EditorModel.Ops M} : Prop := {
  addRows_once region i n f m :
    emitsOnce (EditorModel.addRows region i n f m);
  addColumns_once region i n f m :
    emitsOnce (EditorModel.addColumns region i n f m);
  removeRows_once region i n f m :
    emitsOnce (EditorModel.removeRows region i n f m);
  removeColumns_once region i n f m :
    emitsOnce (EditorModel.removeColumns region i n f m);
  cut_once region a b c d f m :
    emitsOnce (EditorModel.cut region a b c d f m);
  paste_once region a b text f m :
    emitsOnce (EditorModel.paste region a b text f m);
  clearCells_once region rg f m :
    emitsOnce (EditorModel.clearCells region rg f m);
  clearRows_once region a n f m :
    emitsOnce (EditorModel.clearRows region a n f m);
  clearColumns_once region a n f m :
    emitsOnce (EditorModel.clearColumns region a n f m);
  emitOppositeChange_once g m :
    ∃ change, (EditorModel.emitOppositeChange g m).2 = [change];
  emitCurrentChange_once change m :
    (EditorModel.emitCurrentChange change m).2 = [change]
}.

(** The change event among the entries one action added describes the
    region the transaction affected: for a committed or redone transaction
    it is the change recorded with it, for an undone one it is what the model
    sent for the grid state that was taken back. *)
Definition describesRegion {M : Type} `{EditorModel.Ops M}
    (e e' : DSVEditor.t M) (entries : list DSVEditor.Entry) : Prop :=
  match entries with
  | [DSVEditor.Emitted change; DSVEditor.Committed _]
  | [DSVEditor.Redone; DSVEditor.Emitted change] =>
      ∃ gs,
        Litestore.gridState (Litestore.record (DSVEditor.litestore e'))
        = Some gs
        ∧ nextChange gs = change
  | [DSVEditor.Undone; DSVEditor.Emitted change] =>
      (EditorModel.emitOppositeChange
         (Litestore.gridState (Litestore.record (DSVEditor.litestore e)))
         (DSVEditor.dataModel e)).2 = [change]
  | _ => True
  end.

(** One action of the editor adds the entries of at most one transaction,
    with exactly one change event for it. *)
Definition oneEvent {M : Type} `{EditorModel.Ops M}
    (e e' : DSVEditor.t M) : Prop :=
  ∃ entries,
    DSVEditor.log e' = DSVEditor.log e ++ entries
    ∧ DSVEditor.oneEventPerTransaction entries
    ∧ describesRegion e e' entries.

End Contract.

(** ** An editor model after the spec's Edit Engine *)

Module SpecModel.

Import Types.

(** Modelled from the spec: the state of the Edit Engine (the methods of
    [EditorModel], [./model], are not among the sources): the untouched
    original parse, the configured delimiter, the "strictly increasing
    counter" that mints keys, and the clipboard buffer. *)
Record M : Type := {
  original : list (list string);
  delimiter : Ascii.ascii;
  nextKey : Z;
  clipboard : list (list string)
}.

Definition rowCount (f : Litestore.Fields) : Z :=
  Z.of_nat (length (Litestore.rowMap f)).

Definition columnCount (f : Litestore.Fields) : Z :=
  Z.of_nat (length (Litestore.columnMap f)).

(** Modelled from the spec: "position clamped to [0, length]". *)
Definition clamp (p len : Z) : Z := Z.max 0 (Z.min p len).

(** Modelled from the spec: the overlay key of a cell, the two keys
    "assembled as delimited strings". *)
Definition cellKey (rowKey columnKey : Z) : string :=
  (pretty rowKey +:+ "," +:+ pretty columnKey)%string.

(** A string without a comma, as the decimal numerals of the keys are. *)
Fixpoint commaFree (s : string) : Prop :=
  match s with
  | EmptyString => True
  | String c s' => c ≠ Ascii.ascii_of_nat 44 ∧ commaFree s'
  end.

(** Modelled from the spec: Overlay [get] with its fall-back, "use the value
    from the original parsed grid"; a key minted later has no original cell
    and reads as the empty string. *)
Definition cellText (f : Litestore.Fields) (m : M) (rowKey columnKey : Z)
  : string :=
  match Litestore.valueMap f !! cellKey rowKey columnKey with
  | Some v => v
  | None =>
      if decide (0 ≤ rowKey ∧ 0 ≤ columnKey)
      then default ""%string
             (row ← original m !! Z.to_nat rowKey; row !! Z.to_nat columnKey)
      else ""%string
  end.

(** Modelled from the spec: [keyAt] over a run of visual positions, the
    keys at positions [lo] to [hi] of an Index Map as far as they exist. *)
Definition keysBetween (l : list Z) (lo hi : Z) : list Z :=
  take (Z.to_nat (hi + 1 - Z.max 0 lo)) (drop (Z.to_nat (Z.max 0 lo)) l).

(** Modelled from the spec: a "no-op", no patch and no event. *)
Definition noop (m : M) : EditorModel.Result M :=
  {| EditorModel.model := m; EditorModel.update := None;
     EditorModel.changed := [] |}.

(** Modelled from the spec: the one change event of an edit, sent to the
    grid and stored with the update. *)
Definition edit (m : M) (rowUpdate columnUpdate : option ListField.Update)
    (valueUpdate : option MapUpdate) (rows columns : Z)
    (change : DataModel.ChangedArgs) : EditorModel.Result M :=
  {| EditorModel.model := m;
     EditorModel.update :=
       Some {| rowUpdate := rowUpdate; columnUpdate := columnUpdate;
               valueUpdate := valueUpdate;
               gridStateUpdate :=
                 Some {| currentRows := rows; currentColumns := columns;
                         nextChange := change; nextCommand := None |};
               type := None; selection := None |};
     EditorModel.changed := [change] |}.

(** Modelled from the spec: the counter after [count] keys were minted. *)
Definition mint (count : Z) (m : M) : M :=
  {| original := original m; delimiter := delimiter m;
     nextKey := nextKey m + count; clipboard := clipboard m |}.

(** Modelled from the spec: the clipboard buffer written. *)
Definition setClipboard (block : list (list string)) (m : M) : M :=
  {| original := original m; delimiter := delimiter m;
     nextKey := nextKey m; clipboard := block |}.

(** Modelled from the spec: insertRows, "Index Map splice inserting count
    fresh keys at position; overlay untouched; count ≤ 0 is a no-op; position
    clamped to [0, length]". *)
Definition addRows (region : DataModel.CellRegion) (index : jsnum)
    (count : Z) (f : Litestore.Fields) (m : M) : EditorModel.Result M :=
  match index with
  | Some p =>
      if decide (count ≤ 0) then noop m
      else
        let pos := clamp p (rowCount f) in
        edit (mint count m)
          (Some {| ListField.index := pos; ListField.remove := 0;
                   ListField.values := seqZ (nextKey m) count |})
          None None (rowCount f + count) (columnCount f)
          (DataModel.rows_inserted region pos count)
  | None => noop m
  end.

(** Modelled from the spec: insertColumns, as insertRows. *)
Definition addColumns (region : DataModel.CellRegion) (index : jsnum)
    (count : Z) (f : Litestore.Fields) (m : M) : EditorModel.Result M :=
  match index with
  | Some p =>
      if decide (count ≤ 0) then noop m
      else
        let pos := clamp p (columnCount f) in
        edit (mint count m) None
          (Some {| ListField.index := pos; ListField.remove := 0;
                   ListField.values := seqZ (nextKey m) count |})
          None (rowCount f) (columnCount f + count)
          (DataModel.columns_inserted region pos count)
  | None => noop m
  end.

(** Modelled from the spec: removeRows, "Index Map splice removing keys;
    removing beyond bounds truncates to available length". *)
Definition removeRows (region : DataModel.CellRegion) (index : jsnum)
    (count : Z) (f : Litestore.Fields) (m : M) : EditorModel.Result M :=
  match index with
  | Some p =>
      let pos := clamp p (rowCount f) in
      let n := Z.min count (rowCount f - pos) in
      if decide (n ≤ 0) then noop m
      else
        edit m
          (Some {| ListField.index := pos; ListField.remove := n;
                   ListField.values := [] |})
          None None (rowCount f - n) (columnCount f)
          (DataModel.rows_removed region pos n)
  | None => noop m
  end.

(** Modelled from the spec: removeColumns, as removeRows. *)
Definition removeColumns (region : DataModel.CellRegion) (index : jsnum)
    (count : Z) (f : Litestore.Fields) (m : M) : EditorModel.Result M :=
  match index with
  | Some p =>
      let pos := clamp p (columnCount f) in
      let n := Z.min count (columnCount f - pos) in
      if decide (n ≤ 0) then noop m
      else
        edit m None
          (Some {| ListField.index := pos; ListField.remove := n;
                   ListField.values := [] |})
          None (rowCount f) (columnCount f - n)
          (DataModel.columns_removed region pos n)
  | None => noop m
  end.

(** Modelled from the spec: the values of a rectangular selection, read
    row by row through the Index Maps and the overlay. *)
Definition readRange (f : Litestore.Fields) (m : M) (rlo clo rhi chi : Z)
  : list (list string) :=
  (λ rk, cellText f m rk <$> keysBetween (Litestore.columnMap f) clo chi)
    <$> keysBetween (Litestore.rowMap f) rlo rhi.

(** Modelled from the spec: clear(range), "Overlay clearRange setting all
    cells in range to empty string; empty selection is a no-op". *)
Definition clearRange (region : DataModel.CellRegion)
    (r1 c1 r2 c2 : jsnum) (f : Litestore.Fields) (m : M)
  : EditorModel.Result M :=
  match r1, c1, r2, c2 with
  | Some r1, Some c1, Some r2, Some c2 =>
      let rlo := Z.min r1 r2 in
      let rhi := Z.max r1 r2 in
      let clo := Z.min c1 c2 in
      let chi := Z.max c1 c2 in
      let rowKeys := keysBetween (Litestore.rowMap f) rlo rhi in
      let columnKeys := keysBetween (Litestore.columnMap f) clo chi in
      match rowKeys, columnKeys with
      | _ :: _, _ :: _ =>
          edit m None None
            (Some (list_to_map
                     (rk ← rowKeys; ck ← columnKeys;
                      [(cellKey rk ck, Some ""%string)])))
            (rowCount f) (columnCount f)
            (DataModel.cells_changed region rlo clo
               (rhi - rlo + 1) (chi - clo + 1))
      | _, _ => noop m
      end
  | _, _, _, _ => noop m
  end.

(** Modelled from the spec: copy(range), "no model mutation; reads values
    into the external clipboard buffer". *)
Definition copy (region : DataModel.CellRegion) (r1 c1 r2 c2 : jsnum)
    (f : Litestore.Fields) (m : M) : M :=
  match r1, c1, r2, c2 with
  | Some r1, Some c1, Some r2, Some c2 =>
      setClipboard
        (readRange f m (Z.min r1 r2) (Z.min c1 c2) (Z.max r1 r2)
           (Z.max c1 c2))
        m
  | _, _, _, _ => m
  end.

(** Modelled from the spec: cut(range), "equivalent to clear(range) plus
    placing the removed values in an external clipboard buffer". *)
Definition cut (region : DataModel.CellRegion) (r1 c1 r2 c2 : jsnum)
    (f : Litestore.Fields) (m : M) : EditorModel.Result M :=
  clearRange region r1 c1 r2 c2 f (copy region r1 c1 r2 c2 f m).

(** Modelled from the spec: clear(range) on the selection handed over;
    without a selection there is nothing to clear. *)
Definition clearCells (region : DataModel.CellRegion)
    (range : option EditorModel.Range) (f : Litestore.Fields) (m : M)
  : EditorModel.Result M :=
  match range with
  | Some rg =>
      clearRange region (EditorModel.r1 rg) (EditorModel.c1 rg)
        (EditorModel.r2 rg) (EditorModel.c2 rg) f m
  | None => noop m
  end.

(** Modelled from the spec: clear(range) on whole rows. *)
Definition clearRows (region : DataModel.CellRegion) (r1 rowSpan : jsnum)
    (f : Litestore.Fields) (m : M) : EditorModel.Result M :=
  clearRange region r1 (Some 0) (jsadd (jsadd r1 rowSpan) (Some (-1)))
    (Some (columnCount f - 1)) f m.

(** Modelled from the spec: clear(range) on whole columns. *)
Definition clearColumns (region : DataModel.CellRegion)
    (c1 columnSpan : jsnum) (f : Litestore.Fields) (m : M)
  : EditorModel.Result M :=
  clearRange region (Some 0) c1 (Some (rowCount f - 1))
    (jsadd (jsadd c1 columnSpan) (Some (-1))) f m.

(** Modelled from the spec: paste splits "columns on the configured
    delimiter"; a row without the delimiter is a single-column value. *)
Fixpoint splitOn (c : Ascii.ascii) (s : string) : list string :=
  match s with
  | EmptyString => [EmptyString]
  | String d s' =>
      if Ascii.eqb d c then EmptyString :: splitOn c s'
      else match splitOn c s' with
           | x :: xs => String d x :: xs
           | [] => [String d EmptyString]
           end
  end.

(** Modelled from the spec: paste splits "rows on line breaks", each of
    the row terminators LF, CR LF and CR. *)
Fixpoint splitLines (s : string) : list string :=
  match s with
  | EmptyString => [EmptyString]
  | String d s' =>
      if Ascii.eqb d JsString.LF then EmptyString :: splitLines s'
      else if Ascii.eqb d JsString.CR then
        match s' with
        | String d' s'' =>
            if Ascii.eqb d' JsString.LF then EmptyString :: splitLines s''
            else EmptyString :: splitLines s'
        | EmptyString => EmptyString :: splitLines s'
        end
      else match splitLines s' with
           | x :: xs => String d x :: xs
           | [] => [String d EmptyString]
           end
  end.

(** Modelled from the spec: the block of a clipboard text, "rows split on
    line breaks, columns on the configured delimiter". *)
Definition parseBlock (c : Ascii.ascii) (text : string) : list (list string) :=
  splitOn c <$> splitLines text.

(** Modelled from the spec: the columns a block reaches over, those of its
    longest row. *)
Definition blockWidth (block : list (list string)) : Z :=
  foldr (λ row w, Z.max (Z.of_nat (length row)) w) 0 block.

(** Modelled from the spec: the cells a block covers "starting at origin":
    position of the row, position of the column, text. *)
Definition blockWrites (row column : Z) (block : list (list string))
  : list (Z * Z * string) :=
  mjoin
    (imap
       (λ i cells,
          imap (λ j v, (row + Z.of_nat i, column + Z.of_nat j, v)) cells)
       block).

(** Modelled from the spec: paste(origin, clipboardText), "parses
    clipboardText into a rectangular block (rows split on line breaks,
    columns on the configured delimiter) and overlay-sets each cell starting
    at origin, growing the grid with insertRows/insertColumns if the block
    exceeds current bounds", one "compound patch (index splice + overlay
    changes)".  Without a text the block is the clipboard buffer. *)
Definition paste (region : DataModel.CellRegion) (row column : jsnum)
    (text : option string) (f : Litestore.Fields) (m : M)
  : EditorModel.Result M :=
  match row, column with
  | Some row, Some column =>
      let block :=
        match text with
        | Some text => parseBlock (delimiter m) text
        | None => clipboard m
        end in
      match block with
      | [] => noop m
      | _ :: _ =>
          let row := Z.max 0 row in
          let column := Z.max 0 column in
          let height := Z.of_nat (length block) in
          let width := blockWidth block in
          let growRows := Z.max 0 (row + height - rowCount f) in
          let growColumns := Z.max 0 (column + width - columnCount f) in
          let newRows := seqZ (nextKey m) growRows in
          let newColumns := seqZ (nextKey m + growRows) growColumns in
          let rowMap := Litestore.rowMap f ++ newRows in
          let columnMap := Litestore.columnMap f ++ newColumns in
          let cells :=
            omap
              (λ w : Z * Z * string,
                 rk ← rowMap !! Z.to_nat w.1.1;
                 ck ← columnMap !! Z.to_nat w.1.2;
                 Some (cellKey rk ck, Some w.2))
              (blockWrites row column block) in
          edit (mint (growRows + growColumns) m)
            (if decide (0 < growRows)
             then Some {| ListField.index := rowCount f;
                          ListField.remove := 0;
                          ListField.values := newRows |}
             else None)
            (if decide (0 < growColumns)
             then Some {| ListField.index := columnCount f;
                          ListField.remove := 0;
                          ListField.values := newColumns |}
             else None)
            (Some (list_to_map cells))
            (rowCount f + growRows) (columnCount f + growColumns)
            (DataModel.cells_changed region row column height width)
      end
  | _, _ => noop m
  end.

(** Modelled from the spec: the change that takes back a change. *)
Definition opposite (change : DataModel.ChangedArgs)
  : DataModel.ChangedArgs :=
  match change with
  | DataModel.rows_inserted g i n => DataModel.rows_removed g i n
  | DataModel.rows_removed g i n => DataModel.rows_inserted g i n
  | DataModel.columns_inserted g i n => DataModel.columns_removed g i n
  | DataModel.columns_removed g i n => DataModel.columns_inserted g i n
  | DataModel.rows_moved g i n d => DataModel.rows_moved g d n i
  | DataModel.columns_moved g i n d => DataModel.columns_moved g d n i
  | DataModel.cells_changed g r c h w => DataModel.cells_changed g r c h w
  | DataModel.model_reset => DataModel.model_reset
  end.

(** Modelled from the spec: the one change event of an undone transaction;
    without a recorded grid state the grid is told to reset. *)
Definition emitOppositeChange (g : option GridState) (m : M)
  : M * list DataModel.ChangedArgs :=
  (m, [match g with
       | Some gs => opposite (nextChange gs)
       | None => DataModel.model_reset
       end]).

(** Modelled from the spec: the one change event of a redone transaction. *)
Definition emitCurrentChange (change : DataModel.ChangedArgs) (m : M)
  : M * list DataModel.ChangedArgs :=
  (m, [change]).

(** Modelled from the spec: the size of the initial parse, "a rectangular
    array of row arrays of text". *)
Definition totalRows (m : M) : Z := Z.of_nat (length (original m)).

Definition totalColumns (m : M) : Z :=
  match original m with
  | row :: _ => Z.of_nat (length row)
  | [] => 0
  end.

(** Modelled from the spec: the model of a freshly parsed document; the
    keys [0 ..] of the initial maps are taken, so minting starts above
    them. *)
Definition load (parse : list (list string)) (c : Ascii.ascii) : M :=
  {| original := parse; delimiter := c;
     nextKey :=
       Z.max (Z.of_nat (length parse))
         (match parse with
          | row :: _ => Z.of_nat (length row)
          | [] => 0
          end);
     clipboard := [] |}.

#[global] Instance ops : EditorModel.Ops M := {|
  EditorModel.totalRows := totalRows;
  EditorModel.totalColumns := totalColumns;
  EditorModel.addRows := addRows;
  EditorModel.addColumns := addColumns;
  EditorModel.removeRows := removeRows;
  EditorModel.removeColumns := removeColumns;
  EditorModel.cut := cut;
  EditorModel.copy := copy;
  EditorModel.paste := paste;
  EditorModel.clearCells := clearCells;
  EditorModel.clearRows := clearRows;
  EditorModel.clearColumns := clearColumns;
  EditorModel.emitOppositeChange := emitOppositeChange;
  EditorModel.emitCurrentChange := emitCurrentChange
|}.

End SpecModel.

(** ** The grid of the spec's scenarios *)

Module Scenario.

(** "load a 3×3 grid [["a","b","c"],["1","2","3"],["x","y","z"]]" *)
Definition grid : list (list string) :=
  [["a"; "b"; "c"]; ["1"; "2"; "3"]; ["x"; "y"; "z"]]%string.

Definition comma : Ascii.ascii := Ascii.ascii_of_nat 44.

Definition model : SpecModel.M := SpecModel.load grid comma.

(** The selection from cell [(r1, c1)] to cell [(r2, c2)]. *)
Definition cells (r1 c1 r2 c2 : Z) : SelectionModel.Selection :=
  {| SelectionModel.r1 := r1; SelectionModel.c1 := c1;
     SelectionModel.r2 := r2; SelectionModel.c2 := c2 |}.

(** The update of [setCell(0, 0, "B")]: one overlay write. *)
Definition setCell : Types.ModelChangedArgs :=
  {| Types.rowUpdate := None; Types.columnUpdate := None;
     Types.valueUpdate :=
       Some {[ SpecModel.cellKey 0 0 := Some "B"%string ]};
     Types.gridStateUpdate :=
       Some {| Types.currentRows := 3; Types.currentColumns := 3;
               Types.nextChange :=
                 DataModel.cells_changed DataModel.body 0 0 1 1;
               Types.nextCommand := None |};
     Types.type := None; Types.selection := None |}.

(** A clipboard text of three rows, the last one shorter: put at cell
    [(1, 1)] of the grid it reaches one row and one column past it. *)
Definition pasted : string :=
  ("p,q,r" +:+ String JsString.LF ("s,t,u" +:+ String JsString.LF "v,w"))%string.

End Scenario.

(** ** The title class, the column header and the URI fragment (widget.ts) *)

(** The string methods these parts of the widget call, on whole strings
    rather than single characters. *)
Module JsText.

(** [s.startsWith(p)], the test [indexOf] makes at every position. *)
Fixpoint startsWith (p s : string) : bool :=
  match p, s with
  | EmptyString, _ => true
  | String a p', String b s' =>
      if Ascii.eqb a b then startsWith p' s' else false
  | String _ _, EmptyString => false
  end.

(** [s.slice(n)] for a position [n] that is not negative. *)
Fixpoint skip (n : nat) (s : string) : string :=
  match n, s with
  | S n', String _ s' => skip n' s'
  | _, _ => s
  end.

(** The search of [indexOf] through [s], which starts at position [i] of
    the string searched: the first position where [sub] starts, [-1] when
    there is none. *)
Fixpoint indexOf_at (sub s : string) (i : Z) : Z :=
  if startsWith sub s then i
  else match s with
       | EmptyString => -1
       | String _ s' => indexOf_at sub s' (i + 1)
       end.

(** [s.indexOf(sub, pos)]: the position is clamped to [0 .. s.length]. *)
Definition indexOf (sub s : string) (pos : Z) : Z :=
  let start :=
    Z.to_nat (Z.min (Z.max pos 0) (Z.of_nat (String.length s))) in
  indexOf_at sub (skip start s) (Z.of_nat start).

(** [s.slice(0, end)]: a negative end counts from the end of the string. *)
Definition slice0 (s : string) (end_ : Z) : string :=
  let len := Z.of_nat (String.length s) in
  let to := if end_ <? 0 then Z.max (len + end_) 0 else Z.min end_ len in
  JsString.slice_to (Z.to_nat to) s.

(** [s.includes(sub)] *)
Definition includes (s sub : string) : bool :=
  negb (indexOf sub s 0 =? -1).

(** [s.replace(sub, replacement)] for a string pattern and a replacement
    without [$] patterns: the first occurrence is replaced. *)
Definition replace (s sub replacement : string) : string :=
  let i := indexOf sub s 0 in
  if i =? -1 then s
  else (slice0 s i +:+ replacement
        +:+ skip (Z.to_nat i + String.length sub) s)%string.

(** [s.split(c)] for a separator of one character. *)
Fixpoint split (c : Ascii.ascii) (s : string) : list string :=
  match s with
  | EmptyString => [EmptyString]
  | String d s' =>
      if Ascii.eqb d c then EmptyString :: split c s'
      else match split c s' with
           | [] => [String d EmptyString]
           | x :: l => String d x :: l
           end
  end.

(** [s.split('')]: the characters of [s]. *)
Fixpoint chars (s : string) : list string :=
  match s with
  | EmptyString => []
  | String c s' => String c EmptyString :: chars s'
  end.

(** [l.join(sep)] *)
Fixpoint join (sep : string) (l : list string) : string :=
  match l with
  | [] => EmptyString
  | [x] => x
  | x :: l' => (x +:+ sep +:+ join sep l')%string
  end.

(** How often the character [c] occurs in [s]. *)
Fixpoint occurrences (c : Ascii.ascii) (s : string) : Z :=
  match s with
  | EmptyString => 0
  | String d s' => (if Ascii.eqb d c then 1 else 0) + occurrences c s'
  end.

(** Whether the character [c] occurs in [s]. *)
Fixpoint mentions (c : Ascii.ascii) (s : string) : bool :=
  match s with
  | EmptyString => false
  | String d s' => Ascii.eqb d c || mentions c s'
  end.

(** [s] without its last character. *)
Fixpoint withoutLast (s : string) : string :=
  match s with
  | EmptyString => EmptyString
  | String _ EmptyString => EmptyString
  | String c s' => String c (withoutLast s')
  end.

(** The text of [s] before the first [c], all of [s] when it holds none:
    [s.split(c)[0]]. *)
Definition upto (c : Ascii.ascii) (s : string) : string :=
  default EmptyString (head (split c s)).

End JsText.

(** [set dirty(dirty)] of the editor, on the pair of [_dirty] and
    [title.className]. *)
Module Title.

Definition DIRTY_CLASS : string := "jp-mod-dirty".

Record t : Type := { dirty : bool; className : string }.

Definition set_dirty (d : bool) (w : t) : t :=
  let w := {| dirty := d; className := className w |} in
  if dirty w && negb (JsText.includes (className w) DIRTY_CLASS)
  then {| dirty := d; className := (className w +:+ DIRTY_CLASS)%string |}
  else if negb (dirty w)
       then {| dirty := d;
               className :=
                 JsText.replace (className w) DIRTY_CLASS EmptyString |}
       else w.

End Title.

(** [_countOccurrences] and [_buildColHeader]. *)
Module ColumnHeader.

Definition alphabet : string := "ABCDEFGHIJKLMNOPQRSTUVWXYZ".

(** The local [firstRow] of [_countOccurrences]. *)
Definition firstRow (string rowDelimiter : String.string) : String.string :=
  JsText.slice0 string (JsText.indexOf rowDelimiter string 0).

(** The [while] loop of [_countOccurrences]; every test of its condition
    takes one unit of fuel, and [None] is a loop that has not ended when the
    fuel is used up. *)
Fixpoint countLoop (fuel : nat) (firstRow substring : string)
    (numCol pos : Z) : option Z :=
  match fuel with
  | O => None
  | S fuel' =>
      if pos =? -1 then Some numCol
      else
        let numCol := numCol + 1 in
        let pos := pos + Z.of_nat (String.length substring) in
        countLoop fuel' firstRow substring numCol
          (JsText.indexOf substring firstRow pos)
  end.

(** [_countOccurrences] *)
Definition countOccurrences (fuel : nat)
    (string substring rowDelimiter : String.string) : option Z :=
  let firstRow := firstRow string rowDelimiter in
  numCol ← countLoop fuel firstRow substring 0
              (JsText.indexOf substring firstRow 0);
  Some (numCol + 1).

Section Header.

(** [numberToCharacter] of [./_helper], which is not among the sources. *)
Variable numberToCharacter : Z → string.

(** [_buildColHeader], for the text [rawData] of the document. *)
Definition buildColHeader (fuel : nat) (rawData colDelimiter : string)
  : option string :=
  let rowDelimiter := DSVEditor.guessRowDelimeter rawData in
  numCol ← countOccurrences fuel rawData colDelimiter rowDelimiter;
  if numCol <=? 26 then
    Some (JsText.join colDelimiter
            (JsText.chars (JsText.slice0 alphabet numCol))
          +:+ rowDelimiter)%string
  else
    let columnHeader := JsText.join colDelimiter (JsText.chars alphabet) in
    let columnHeader :=
      foldl (λ header i,
               (header +:+ (colDelimiter +:+ numberToCharacter i))%string)
        columnHeader (seqZ 27 (numCol - 27)) in
    Some (columnHeader +:+ rowDelimiter)%string.

End Header.

End ColumnHeader.

(** [EditableCSVDocumentWidget.setFragment] *)
Module Fragment.

(** What [setFragment] does: nothing, or a call [goToLine(Number(topRow))]
    once the context is ready. *)
Inductive Outcome : Type :=
| Ignored
| GoToLine (topRow : string).

Definition equals : Ascii.ascii := Ascii.ascii_of_nat 61.
Definition semicolon : Ascii.ascii := Ascii.ascii_of_nat 59.
Definition hyphen : Ascii.ascii := Ascii.ascii_of_nat 45.

(** [setFragment]: [parseFragments[1]] is [undefined] when the fragment
    holds no [=], and the call of [split] on it throws. *)
Definition setFragment (fragment : string) : option Outcome :=
  let parseFragments := JsText.split equals fragment in
  if decide (parseFragments !! 0%nat ≠ Some "#row"%string) then Some Ignored
  else
    rows ← parseFragments !! 1%nat;
    topRow ← JsText.split semicolon rows !! 0%nat;
    topRow ← JsText.split hyphen topRow !! 0%nat;
    Some (GoToLine topRow).

End Fragment.

(** The getter [dsvModel] of [EditableDSVModel] (model.ts), which reads the
    property it defines: every call makes the next one.  [fuel] bounds the
    depth of the calls, and [None] is a call that has not returned within
    it. *)
Module DsvModelGetter.

Section Getter.

Context {D : Type}.

Fixpoint dsvModel (fuel : nat) (this : D) : option D :=
  match fuel with
  | O => None
  | S fuel' => dsvModel fuel' this
  end.

End Getter.

End DsvModelGetter.

(** * Properties *)

(** ** The row delimiter guess *)

Section RowDelimiter.

Import JsString.

Lemma get_slice_to n s k :
  String.get k (slice_to n s)
  = if decide (k < n)%nat then String.get k s else None.
Proof.
  revert s k. induction n as [|n IH]; intros [|c s] [|k]; simpl;
    try rewrite IH; repeat case_decide; done || lia.
Qed.

(** [indexOf] either finds nothing, or the first position that holds [c]. *)
Lemma indexOf_from_spec c s i :
  (indexOf_from c s i = -1 ∧ ∀ k, String.get k s ≠ Some c)
  ∨ (∃ k : nat, indexOf_from c s i = i + Z.of_nat k
        ∧ String.get k s = Some c
        ∧ ∀ j, (j < k)%nat → String.get j s ≠ Some c).
Proof.
  revert i. induction s as [|d s IH]; intros i; simpl.
  - left. split; [done | by intros []].
  - destruct (Ascii.eqb_spec d c) as [->|Hne].
    + right. exists 0%nat. split_and!; [lia | done | intros; lia].
    + destruct (IH (i + 1)) as [[E Hno] | (k & E & Hk & Hlt)].
      * left. split; [done |]. intros [|k]; simpl; [congruence | apply Hno].
      * right. exists (S k). split_and!; [lia | done |].
        intros [|j] Hj; simpl; [congruence | apply Hlt; lia].
Qed.

(** C9.  For every input string the row delimiter guess is one of LF,
    CR LF and CR: it is LF when no carriage return occurs among the first
    5000 characters; when the first carriage return there is at position [i]
    it is CR LF if a line feed follows at position [i + 1] of the input, and
    CR if not. *)
Theorem guessRowDelimeter_spec (data : string) :
  let lf := String LF EmptyString in
  let crlf := String CR (String LF EmptyString) in
  let cr := String CR EmptyString in
  let r := DSVEditor.guessRowDelimeter data in
  (r = lf ∨ r = crlf ∨ r = cr)
  ∧ ((∀ k : nat, Z.of_nat k < 5000 → String.get k data ≠ Some CR) → r = lf)
  ∧ (∀ i : nat,
       Z.of_nat i < 5000 →
       String.get i data = Some CR →
       (∀ j, (j < i)%nat → String.get j data ≠ Some CR) →
       (String.get (S i) data = Some LF → r = crlf)
       ∧ (String.get (S i) data ≠ Some LF → r = cr)).
Proof.
  intros lf crlf cr r. subst r. unfold DSVEditor.guessRowDelimeter, indexOf.
  set (n := Z.to_nat 5000).
  assert (Hn : ∀ k : nat, Z.of_nat k < 5000 ↔ (k < n)%nat) by (intros; lia).
  destruct (indexOf_from_spec CR (slice_to n data) 0)
    as [[-> Hno] | (k & -> & Hk & Hfirst)].
  - simpl. split_and!; [by left | done |].
    intros i Hi Hget _. exfalso. apply (Hno i).
    rewrite get_slice_to, decide_True; [done | by apply Hn].
  - rewrite get_slice_to in Hk. case_decide as Hkn; [|done].
    replace (0 + Z.of_nat k =? -1) with false by lia.
    unfold charAt. replace (0 + Z.of_nat k + 1 <? 0) with false by lia.
    replace (Z.to_nat (0 + Z.of_nat k + 1)) with (S k) by lia.
    split_and!.
    + case_decide; [right; by left | right; by right].
    + intros Hnone. exfalso. apply (Hnone k); [by apply Hn | done].
    + intros i Hi Hget Hbefore.
      assert (i = k) as ->.
      { destruct (Nat.lt_trichotomy i k) as [Hlt | [-> | Hgt]]; [|done|].
        - exfalso. apply (Hfirst i Hlt).
          rewrite get_slice_to, decide_True; [done | lia].
        - exfalso. by apply (Hbefore k). }
      split; intros; case_decide; done.
Qed.

End RowDelimiter.

(** ** The transaction log *)

Section StoreFacts.

Import Litestore.

Lemma spliceKeys_inverse l u sp :
  splice l u = Some sp →
  spliceKeys
    (spliceKeys l (position sp) (length (removedKeys sp)) (insertedKeys sp))
    (position sp) (length (insertedKeys sp)) (removedKeys sp) = l.
Proof.
  unfold splice. case_decide as Hb; [|done]. intros [= <-]. simpl.
  set (i := Z.to_nat (ListField.index u)).
  set (n := Z.to_nat (ListField.remove u)).
  assert (Hin : (i + n ≤ length l)%nat) by lia.
  assert (Hn : length (take n (drop i l)) = n).
  { rewrite length_take, length_drop. lia. }
  unfold spliceKeys. rewrite Hn.
  rewrite take_app_length' by (rewrite length_take; lia).
  rewrite drop_app_add' by (rewrite length_take; lia).
  rewrite drop_app_length.
  rewrite <- (drop_drop l n i), take_drop. apply take_drop.
Qed.

Lemma applyCells_inverse (u : MapUpdate) (m : gmap string string) :
  applyCells (map_imap (λ k _, Some (m !! k)) u) (applyCells u m) = m.
Proof.
  apply map_eq. intros k. unfold applyCells.
  rewrite !lookup_merge, map_lookup_imap.
  destruct (u !! k) as [v|] eqn:E; simpl; [done|].
  by destruct (m !! k).
Qed.

(** The inverse patch of a transaction takes its forward patch back. *)
Lemma inverse_forward u r tx :
  transactionOf u r = Some tx → inverse tx (forward tx r) = r.
Proof.
  unfold transactionOf. intros Htx.
  destruct (splice (rowMap r) (rowMapUpdate u)) as [rs|] eqn:Hrs; [|done].
  destruct (splice (columnMap r) (columnMapUpdate u)) as [cs|] eqn:Hcs;
    [|done].
  simpl in Htx. injection Htx as <-. destruct r as [rm cm vm sel gs].
  unfold inverse, forward. simpl in *. f_equal.
  - by eapply spliceKeys_inverse.
  - by eapply spliceKeys_inverse.
  - apply applyCells_inverse.
Qed.

Lemma commit_consistent u s s' :
  undoable (undoStack s) (record s) → commit u s = Some s' → consistent s'.
Proof.
  intros Hu. unfold commit.
  destruct (transactionOf u (record s)) as [tx|] eqn:Htx; [|done].
  intros [= <-]. pose proof (inverse_forward _ _ _ Htx) as Hinv.
  split_and!; simpl; [done | | done]. rewrite Hinv. by split.
Qed.

Lemma undo_consistent s : consistent s → consistent (undo s).
Proof.
  intros (Hne & Hu & Hr). unfold undo.
  destruct (undoStack s) as [|tx [|tx' rest]] eqn:E; [done | | ].
  - split_and!; [by rewrite E | by rewrite E | done].
  - destruct Hu as [Hfwd Hrest]. split_and!; simpl; [done | done |].
    rewrite Hfwd. by split.
Qed.

Lemma redo_consistent s : consistent s → consistent (redo s).
Proof.
  intros (Hne & Hu & Hr). unfold redo.
  destruct (redoStack s) as [|tx rest] eqn:E.
  - split_and!; [done | done | by rewrite E].
  - destruct Hr as [Hinv Hrest]. split_and!; simpl; [done | | done].
    rewrite Hinv. by split.
Qed.

Lemma storeStep_consistent s s' :
  consistent s → storeStep s s' → consistent s'.
Proof.
  intros Hs [-> | [[u Hu] | [-> | ->]]];
    eauto using undo_consistent, redo_consistent.
  eapply commit_consistent; [apply Hs | done].
Qed.

(** Undo of a transaction above the sentinel and then redo give back the
    store as it was. *)
Lemma redo_undo s :
  consistent s → (1 < length (undoStack s))%nat → redo (undo s) = s.
Proof.
  intros (Hne & Hu & Hr) Hlen. unfold undo.
  destruct (undoStack s) as [|tx [|tx' rest]] eqn:E; simpl in Hlen;
    [lia | lia |].
  unfold redo. simpl. destruct Hu as [-> _]. destruct s; simpl in *.
  by subst.
Qed.

End StoreFacts.

(** ** The editor *)

Section EditorFacts.

Import Types DSVEditor.

Context {M : Type} `{EditorModel.Ops M}.

Implicit Types e : DSVEditor.t M.

Local Arguments updateModel : simpl never.

Lemma track_emitted d (l : list DataModel.ChangedArgs) :
  foldl track d (Emitted <$> l) = d.
Proof. revert d. induction l as [|x l IH]; intros d; simpl; [done | apply IH]. Qed.

Lemma summary_refl e : summary e e.
Proof. split; [by left | exists []; by rewrite app_nil_r]. Qed.

Lemma summary_trans e1 e2 e3 :
  litestore e2 = litestore e1 → summary e1 e2 → summary e2 e3 → summary e1 e3.
Proof.
  intros Hs (_ & l1 & Hl1 & Hd1) (Hst & l2 & Hl2 & Hd2). split.
  - by rewrite <- Hs.
  - exists (l1 ++ l2). rewrite Hl2, Hl1, Hd2, Hd1, foldl_app, app_assoc. done.
Qed.

(** A committing [updateModel]: one transaction on the store, one entry in
    the history, and the flag raised unless the update is the initial one. *)
Lemma updateModel_Some u e e' :
  updateModel (Some u) e = Some e' →
  ∃ ru store,
    Litestore.commit ru (litestore e) = Some store
    ∧ Litestore.gridStateUpdate ru = gridStateUpdate u
    ∧ e' = set_dirty (track (dirty e) (Committed (type u)))
             (record [Committed (type u)] (setLitestore store e)).
Proof.
  unfold updateModel. intros Hu.
  match type of Hu with
  | (Litestore.commit ?ru _ ≫= _) = _ =>
      destruct (Litestore.commit ru (litestore e)) as [store|] eqn:Hc;
      [exists ru, store | done]
  end.
  simpl in Hu. split_and!; [done | done |].
  unfold track. case_decide; by injection Hu as <-.
Qed.

Lemma updateModel_summary u e e' : updateModel u e = Some e' → summary e e'.
Proof.
  destruct u as [u|]; [|intros [= <-]; apply summary_refl].
  intros (ru & store & Hc & _ & ->)%updateModel_Some. split; simpl.
  - right; left. by exists ru.
  - by exists [Committed (type u)].
Qed.

Lemma absorb_summary r e : summary e (absorb r e).
Proof.
  split; [by left|]. exists (Emitted <$> EditorModel.changed r).
  split; [done|]. by rewrite track_emitted.
Qed.

Lemma selectCells_summary s e : summary e (selectCells s e).
Proof.
  destruct s; [|apply summary_refl].
  split; [by left | exists []; by rewrite app_nil_r].
Qed.

Lemma afterSwitch_summary c sel r r1 r2 c1 c2 e e' :
  afterSwitch c sel r r1 r2 c1 c2 e = Some e' → summary e e'.
Proof.
  unfold afterSwitch. intros Ha.
  eapply (summary_trans _ (absorb r e)); [done | apply absorb_summary |].
  destruct (EditorModel.update r) as [u|]; [|by apply updateModel_summary in Ha].
  destruct (gridStateUpdate u) as [gs|]; [|done]. simpl in Ha.
  eapply summary_trans; [| apply selectCells_summary
                         | by apply updateModel_summary in Ha].
  by destruct (mkSelection r1 r2 c1 c2).
Qed.

Lemma onCommand_summary c e e' : onCommand c e = Some e' → summary e e'.
Proof.
  destruct c; unfold onCommand; try apply afterSwitch_summary;
    try (intros [= <-]; apply summary_refl).
  - (* copy *)
    intros [= <-]. split; [by left | exists []; by rewrite app_nil_r].
  - (* undo *)
    case_decide; [intros [= <-]; apply summary_refl|].
    destruct (EditorModel.emitOppositeChange _ _) as [m evs].
    intros [= <-]. split.
    + destruct (Litestore.selection _); simpl; right; right; by left.
    + exists (Undone :: (Emitted <$> evs)).
      destruct (Litestore.selection _); simpl;
        by rewrite <- app_assoc, track_emitted.
  - (* redo *)
    case_decide; [intros [= <-]; apply summary_refl|].
    simpl. destruct (Litestore.gridState _) as [gs|]; [|done]. simpl.
    destruct (EditorModel.emitCurrentChange _ _) as [m evs].
    assert (∀ s, summary e
      (selectCells s
         (record (Emitted <$> evs)
            (setDataModel m
               (record [Redone]
                  (setLitestore (Litestore.redo (litestore e)) e)))))) as Hs.
    { intros s. split.
      - destruct s; simpl; right; right; by right.
      - exists (Redone :: (Emitted <$> evs)).
        destruct s; simpl; by rewrite <- app_assoc, track_emitted. }
    destruct (Litestore.selection _); intros [= <-]; [apply Hs|].
    apply (Hs None).
  - (* save *)
    intros [= <-]. split; [by left | by exists [Saved]].
Qed.

Lemma perform_summary a e e' : perform a e = Some e' → summary e e'.
Proof.
  destruct a; simpl.
  - apply onCommand_summary.
  - unfold handlePaste. destruct (getSelectedRange e); [|done]. simpl.
    intros Hu%updateModel_summary.
    eapply summary_trans; [| apply absorb_summary | done]. done.
  - unfold onDelete, onModelSignal. intros Hu%updateModel_summary.
    eapply summary_trans; [| apply absorb_summary | done]. done.
  - apply updateModel_summary.
  - intros [= <-]. split; [by left | exists []; by rewrite app_nil_r].
  - intros [= <-]. apply summary_refl.
Qed.

(** C2.  In every state in which the undo stack holds only the sentinel
    transaction, the undo command changes nothing: the store with its stacks
    and record, the selection, the model and the history stay as they are. *)
Theorem undo_only_sentinel_noop e :
  length (Litestore.undoStack (litestore e)) = 1%nat →
  onCommand Undo e = Some e.
Proof. intros Hl. unfold onCommand. by rewrite decide_True. Qed.

(** C3.  With an empty redo stack the redo command changes nothing;
    otherwise it pops the transaction off the redo stack, pushes it onto the
    undo stack and applies its forward patch to the record (the transaction
    carrying a grid state, as every one committed by a command does). *)
Theorem redo_pops_and_applies e :
  (Litestore.redoStack (litestore e) = [] → onCommand Redo e = Some e)
  ∧ (∀ tx rest gs,
       Litestore.redoStack (litestore e) = tx :: rest →
       Litestore.gridStateCur tx = Some gs →
       ∃ e', onCommand Redo e = Some e'
             ∧ Litestore.redoStack (litestore e') = rest
             ∧ Litestore.undoStack (litestore e')
               = tx :: Litestore.undoStack (litestore e)
             ∧ Litestore.record (litestore e')
               = Litestore.forward tx (Litestore.record (litestore e))).
Proof.
  split.
  - intros Hr. unfold onCommand. by rewrite Hr, decide_True.
  - intros tx rest gs Hr Hgs. unfold onCommand.
    rewrite decide_False by (by rewrite Hr). simpl.
    unfold Litestore.redo. rewrite Hr. simpl. rewrite Hgs. simpl.
    destruct (EditorModel.emitCurrentChange _ _) as [m evs].
    destruct (Litestore.selectionCur tx) as [s|]; [|by eexists].
    destruct (redoSelection _ _ _ _ s); by eexists.
Qed.

(** C4.  A committing [updateModel] leaves the redo stack empty, whatever it
    held, so that a redo command issued right after it changes nothing. *)
Theorem commit_clears_redo u e e' :
  updateModel (Some u) e = Some e' →
  Litestore.redoStack (litestore e') = [] ∧ onCommand Redo e' = Some e'.
Proof.
  intros (ru & store & Hc & _ & ->)%updateModel_Some.
  assert (Litestore.redoStack store = []) as Hr.
  { unfold Litestore.commit in Hc.
    destruct (Litestore.transactionOf _ _); [|done]. by injection Hc as <-. }
  split; [done|]. unfold onCommand. simpl. by rewrite Hr, decide_True.
Qed.

(** The selection a redo restores: the recorded one, moved by the spans of
    the selection that was current when redo was invoked for the two inserting
    commands that move the selection, and put on the one row or column of the
    destination for a move. *)
Lemma redoSelection_rules g i n d rowSpan colSpan (s : SelectionModel.Selection) :
  redoSelection (Some InsertRowsBelow) (DataModel.rows_inserted g i n)
    rowSpan colSpan s
  = Some {| SelectionModel.r1 := SelectionModel.r1 s + rowSpan;
            SelectionModel.c1 := SelectionModel.c1 s;
            SelectionModel.r2 := SelectionModel.r2 s + rowSpan;
            SelectionModel.c2 := SelectionModel.c2 s |}
  ∧ redoSelection (Some InsertColumnsRight)
      (DataModel.columns_inserted g i n) rowSpan colSpan s
    = Some {| SelectionModel.r1 := SelectionModel.r1 s;
              SelectionModel.c1 := SelectionModel.c1 s + colSpan;
              SelectionModel.r2 := SelectionModel.r2 s;
              SelectionModel.c2 := SelectionModel.c2 s + colSpan |}
  ∧ redoSelection (Some MoveRows) (DataModel.rows_moved g i n d)
      rowSpan colSpan s
    = Some {| SelectionModel.r1 := d;
              SelectionModel.c1 := SelectionModel.c1 s;
              SelectionModel.r2 := d;
              SelectionModel.c2 := SelectionModel.c2 s |}
  ∧ redoSelection (Some MoveColumns) (DataModel.columns_moved g i n d)
      rowSpan colSpan s
    = Some {| SelectionModel.r1 := SelectionModel.r1 s;
              SelectionModel.c1 := d;
              SelectionModel.r2 := SelectionModel.r2 s;
              SelectionModel.c2 := d |}.
Proof. done. Qed.

(** X14.  What a redo does to the selection of the grid: the transaction
    redone has its recorded selection adjusted with the spans of the selection
    that is current when the command arrives, not with what the transaction
    changed. *)
Theorem redo_selects e tx rest gs s :
  Litestore.redoStack (litestore e) = tx :: rest →
  Litestore.gridStateCur tx = Some gs →
  Litestore.selectionCur tx = Some s →
  ∃ e',
    onCommand Redo e = Some e'
    ∧ selections e'
      = match redoSelection (nextCommand gs) (nextChange gs)
                (rowsSelected e) (columnsSelected e) s with
        | Some s' => [s']
        | None => selections e
        end.
Proof.
  intros Hr Hgs Hs. unfold onCommand.
  rewrite decide_False by (by rewrite Hr). simpl.
  unfold Litestore.redo. rewrite Hr. simpl. rewrite Hgs, Hs. simpl.
  destruct (EditorModel.emitCurrentChange _ _) as [m evs].
  change (rowsSelected
            {| litestore := litestore e; selections := selections e;
               dirty := dirty e; dataModel := dataModel e; log := log e |})
    with (rowsSelected e).
  destruct (redoSelection _ _ _ _ s); by eexists.
Qed.

(** A paste goes to the model with the top-left cell of the first selection
    as its origin, and what the model returns is committed once. *)
Lemma handlePaste_selected e s rest text :
  selections e = s :: rest →
  handlePaste text e
  = let r :=
      EditorModel.paste DataModel.body
        (Some (Z.min (SelectionModel.r1 s) (SelectionModel.r2 s)))
        (Some (Z.min (SelectionModel.c1 s) (SelectionModel.c2 s)))
        (Some text) (Litestore.getRecord (litestore e)) (dataModel e) in
    updateModel (EditorModel.update r) (absorb r e).
Proof. intros Hsel. unfold handlePaste, getSelectedRange. by rewrite Hsel. Qed.

Lemma load_summary m e :
  updateGrid m None = Some e →
  Litestore.consistent (litestore e) ∧ dirty e = foldl track false (log e).
Proof.
  unfold updateGrid. intros (ru & store & Hc & _ & ->)%updateModel_Some.
  split; [|done]. simpl. eapply commit_consistent; [|exact Hc]. done.
Qed.

(** In every session the stacks of the store fit its record, and the dirty
    flag is what the history says. *)
Lemma reachable_invariant e :
  reachable e →
  Litestore.consistent (litestore e) ∧ dirty e = foldl track false (log e).
Proof.
  induction 1 as [m e Hl | a e e' _ [IHc IHd] Hp]; [by eapply load_summary|].
  apply perform_summary in Hp as (Hst & l & Hl & Hd). split.
  - by eapply storeStep_consistent.
  - by rewrite Hl, foldl_app, <- IHd.
Qed.

Lemma session_reachable m acts e : session m acts = Some e → reachable e.
Proof.
  unfold session. revert e.
  induction acts as [|a acts IH] using rev_ind; intros e; simpl.
  - apply reachable_load.
  - rewrite foldl_app. simpl.
    destruct (foldl _ _ acts) as [e0|] eqn:E; [|done]. simpl.
    intros Hp. eapply reachable_step; [by apply IH | done].
Qed.

(** The history leaves the flag raised exactly when it holds a commit that
    is not the initial one with no save after it. *)
Lemma track_true (l : list Entry) :
  foldl track false l = true
  ↔ ∃ before ty after,
      l = before ++ Committed ty :: after
      ∧ ty ≠ Some "init"%string ∧ Saved ∉ after.
Proof.
  induction l as [|x l IH] using rev_ind.
  - split; [done | intros (b & ty & a & Hl & _)]. by destruct b.
  - rewrite foldl_app. simpl.
    assert (∀ b ty a, l ++ [x] = b ++ Committed ty :: a →
              (a = [] ∧ l = b ∧ x = Committed ty)
              ∨ ∃ a', a = a' ++ [x] ∧ l = b ++ Committed ty :: a') as Hsplit.
    { intros b ty a. destruct a as [|y a IHa] using rev_ind.
      - intros [-> ->]%(app_inj_tail l b). by left.
      - rewrite app_comm_cons, app_assoc.
        intros [-> ->]%app_inj_tail. right. by eexists. }
    assert (x ≠ Saved → (∃ b ty a, l = b ++ Committed ty :: a
                           ∧ ty ≠ Some "init"%string ∧ Saved ∉ a) →
            ∃ b ty a, l ++ [x] = b ++ Committed ty :: a
                      ∧ ty ≠ Some "init"%string ∧ Saved ∉ a) as Hext.
    { intros Hx (b & ty & a & -> & Hty & Ha). exists b, ty, (a ++ [x]).
      split_and!; [by rewrite <- app_assoc | done |].
      rewrite elem_of_app, list_elem_of_singleton. by intros [?|?]. }
    destruct x as [ty| | | |c]; simpl.
    + case_decide as Hty.
      * rewrite IH. split; [by apply Hext|].
        intros (b & ty' & a & Hl & Hty' & Ha).
        apply Hsplit in Hl as [(_ & _ & [= ->]) | (a' & -> & ->)]; [done|].
        exists b, ty', a'. split_and!; [done..|].
        intros ?. apply Ha, elem_of_app. by left.
      * split; [|done]. intros _. exists l, ty, []. split_and!; [done..|].
        apply not_elem_of_nil.
    + rewrite IH. split; [by apply Hext|].
      intros (b & ty' & a & Hl & Hty' & Ha).
      apply Hsplit in Hl as [(_ & _ & [=]) | (a' & -> & ->)].
      exists b, ty', a'. split_and!; [done..|].
      intros ?. apply Ha, elem_of_app. by left.
    + rewrite IH. split; [by apply Hext|].
      intros (b & ty' & a & Hl & Hty' & Ha).
      apply Hsplit in Hl as [(_ & _ & [=]) | (a' & -> & ->)].
      exists b, ty', a'. split_and!; [done..|].
      intros ?. apply Ha, elem_of_app. by left.
    + split; [done|]. intros (b & ty' & a & Hl & Hty' & Ha).
      apply Hsplit in Hl as [(_ & _ & [=]) | (a' & -> & ->)].
      exfalso. apply Ha, elem_of_app. right. by apply list_elem_of_singleton.
    + rewrite IH. split; [by apply Hext|].
      intros (b & ty' & a & Hl & Hty' & Ha).
      apply Hsplit in Hl as [(_ & _ & [=]) | (a' & -> & ->)].
      exists b, ty', a'. split_and!; [done..|].
      intros ?. apply Ha, elem_of_app. by left.
Qed.

(** C10.  A committed update whose type is not ["init"] raises the dirty
    flag, the initial update leaves it alone, and a completed save lowers it;
    so, in every session, the editor is dirty exactly when its history holds
    the commit of an update that is not the initial one with no completed
    save after it. *)
Theorem dirty_iff_committed_since_save :
  (∀ u e e', updateModel (Some u) e = Some e' →
     dirty e' = if decide (type u = Some "init"%string) then dirty e
                else true)
  ∧ (∀ e, dirty (save e) = false)
  ∧ (∀ e, reachable e →
       (dirty e = true
        ↔ ∃ before ty after,
            log e = before ++ Committed ty :: after
            ∧ ty ≠ Some "init"%string ∧ Saved ∉ after)).
Proof.
  split_and!.
  - by intros u e e' (ru & store & _ & _ & ->)%updateModel_Some.
  - done.
  - intros e [_ ->]%reachable_invariant. apply track_true.
Qed.

(** C1, as amended.  In every session, with a transaction above the sentinel
    on the undo stack that carries a grid state, the undo command followed at
    once by the redo command leaves the store as it was: row map, column map,
    value overlay, recorded selection and both stacks.  The selection of the
    grid is not what it was before the undo but the selection recorded with
    the transaction, after redo's adjustment for the command; with no
    selection recorded it is left alone. *)
Theorem undo_redo_restores e gs :
  reachable e →
  (1 < length (Litestore.undoStack (litestore e)))%nat →
  Litestore.gridState (Litestore.record (litestore e)) = Some gs →
  ∃ e1 e2,
    onCommand Undo e = Some e1
    ∧ onCommand Redo e1 = Some e2
    ∧ litestore e2 = litestore e
    ∧ dirty e2 = dirty e
    ∧ match Litestore.selection (Litestore.record (litestore e)) with
      | Some s =>
          selections e2
          = [default s
               (redoSelection (nextCommand gs) (nextChange gs)
                  (Z.abs (SelectionModel.r2 s - SelectionModel.r1 s) + 1)
                  (Z.abs (SelectionModel.c2 s - SelectionModel.c1 s) + 1)
                  s)]
      | None => selections e2 = selections e
      end.
Proof.
  intros [Hcons _]%reachable_invariant Hlen Hgs.
  pose proof (redo_undo _ Hcons Hlen) as Hru.
  assert (Litestore.redoStack (Litestore.undo (litestore e)) ≠ []) as Hne.
  { unfold Litestore.undo.
    destruct (Litestore.undoStack (litestore e)) as [|tx [|tx' rest]];
      simpl in *; [lia | lia | done]. }
  cut (∃ e1, onCommand Undo e = Some e1
             ∧ ∃ e2, onCommand Redo e1 = Some e2
                     ∧ litestore e2 = litestore e
                     ∧ dirty e2 = dirty e
                     ∧ match Litestore.selection
                               (Litestore.record (litestore e)) with
                       | Some s =>
                           selections e2
                           = [default s
                                (redoSelection (nextCommand gs)
                                   (nextChange gs)
                                   (Z.abs (SelectionModel.r2 s
                                           - SelectionModel.r1 s) + 1)
                                   (Z.abs (SelectionModel.c2 s
                                           - SelectionModel.c1 s) + 1)
                                   s)]
                       | None => selections e2 = selections e
                       end).
  { intros (e1 & ? & e2 & ?). by exists e1, e2. }
  unfold onCommand at 1. rewrite decide_False by lia. simpl.
  destruct (EditorModel.emitOppositeChange _ _) as [m1 evs1].
  eexists. split; [reflexivity|].
  unfold onCommand, Litestore.getRecord.
  destruct (Litestore.selection (Litestore.record (litestore e)))
    as [s|] eqn:Hsel; simpl.
  - rewrite decide_False
      by (by destruct (Litestore.redoStack (Litestore.undo (litestore e)))).
    rewrite Hru, Hgs. simpl.
    destruct (EditorModel.emitCurrentChange _ _) as [m2 evs2].
    rewrite Hsel. unfold rowsSelected, columnsSelected, currentSelection.
    simpl.
    destruct (redoSelection _ _ _ _ s) as [s'|]; simpl;
      (eexists; split; [reflexivity | by split_and!]).
  - rewrite decide_False
      by (by destruct (Litestore.redoStack (Litestore.undo (litestore e)))).
    rewrite Hru, Hgs. simpl.
    destruct (EditorModel.emitCurrentChange _ _) as [m2 evs2].
    rewrite Hsel. eexists. by split_and!.
Qed.

End EditorFacts.

(** ** Change events *)

Section ModelFacts.

Import EditableDSVModel.

Context {D : Type}.
Variable header : D → list string.
Variable setField : Z → Z → string → D → D.
Variable dsvData : DataModel.CellRegion → Z → Z → D → string.

(** C6.  [setData] on a body cell returns [true] and sends one
    [cells-changed] event for that cell, for every value: nothing compares the
    value with the one stored, so writing the stored value again sends the
    event as well. *)
Theorem setData_always_emits (m : EditableDSVModel.t D) (row column : Z) :
  (∀ value, ∃ m',
     setData header setField DataModel.body row column value m
     = Some (true, m')
     ∧ changed m'
       = changed m ++ [DataModel.cells_changed DataModel.body row column 1 1])
  ∧ ∃ m',
      setData header setField DataModel.body row column
        (data dsvData DataModel.body row column m) m
      = Some (true, m')
      ∧ changed m'
        = changed m
          ++ [DataModel.cells_changed DataModel.body row column 1 1].
Proof. split; [intros value|]; by eexists. Qed.

End ModelFacts.

Section EventFacts.

Import Types DSVEditor Contract.

Context {M : Type} `{EditorModel.Ops M} `{!Contract.Laws M}.

Implicit Types e : DSVEditor.t M.

Local Arguments updateModel : simpl never.

Lemma commit_gridState ru s s' :
  Litestore.commit ru s = Some s' →
  Litestore.gridState (Litestore.record s') = Litestore.gridStateUpdate ru.
Proof.
  unfold Litestore.commit, Litestore.transactionOf. intros Hc.
  destruct (Litestore.splice _ _); destruct (Litestore.splice _ _);
    simpl in Hc; try done.
  by injection Hc as <-.
Qed.

(** An update that follows the contract and goes straight to [updateModel]:
    one event, one transaction. *)
Lemma signalled_oneEvent (r : EditorModel.Result M) e e' :
  emitsOnce r →
  updateModel (EditorModel.update r) (absorb r e) = Some e' →
  oneEvent e e'.
Proof.
  unfold emitsOnce. destruct (EditorModel.update r) as [u|].
  - intros (gs & Hgs & Hch) (ru & store & Hc & Hru & ->)%updateModel_Some.
    exists [Emitted (nextChange gs); Committed (type u)].
    split_and!; simpl.
    + by rewrite Hch, <- app_assoc.
    + constructor.
    + exists gs. by rewrite (commit_gridState _ _ _ Hc), Hru.
  - intros Hch [= <-]. exists []. split_and!; simpl; [|constructor|exact I].
    by rewrite Hch.
Qed.

Lemma afterSwitch_oneEvent c sel (r : EditorModel.Result M) r1 r2 c1 c2 e e' :
  emitsOnce r →
  afterSwitch c sel r r1 r2 c1 c2 e = Some e' →
  oneEvent e e'.
Proof.
  unfold emitsOnce, afterSwitch. destruct (EditorModel.update r) as [u|].
  - intros (gs & -> & Hch). simpl.
    intros (ru & store & Hc & Hru & ->)%updateModel_Some.
    exists [Emitted (nextChange gs); Committed (type u)].
    split_and!; simpl.
    + destruct (mkSelection r1 r2 c1 c2); simpl; by rewrite Hch, <- app_assoc.
    + constructor.
    + eexists. rewrite (commit_gridState _ _ _ Hc), Hru. by split.
  - intros Hch [= <-]. exists []. split_and!; simpl; [|constructor|exact I].
    by rewrite Hch.
Qed.

Lemma onCommand_oneEvent c e e' : onCommand c e = Some e' → oneEvent e e'.
Proof.
  assert (oneEvent e e) as Hrefl.
  { exists []. split_and!; [by rewrite app_nil_r | constructor | exact I]. }
  destruct c; unfold onCommand;
    try (intros [= <-]; exact Hrefl);
    try (apply afterSwitch_oneEvent;
         first [ apply addRows_once | apply addColumns_once
               | apply removeRows_once | apply removeColumns_once
               | apply cut_once | apply paste_once | apply clearCells_once
               | apply clearRows_once | apply clearColumns_once ]).
  - (* undo *)
    case_decide; [intros [= <-]; exact Hrefl|].
    unfold Litestore.getRecord.
    destruct (emitOppositeChange_once
                (Litestore.gridState (Litestore.record (litestore e)))
                (dataModel e)) as [change Hch].
    destruct (EditorModel.emitOppositeChange _ _) as [m evs] eqn:Heq.
    simpl in Hch. subst evs. intros [= <-].
    exists [Undone; Emitted change].
    split_and!; [| apply step_undone | simpl; by rewrite Heq].
    destruct (Litestore.selection _); simpl; by rewrite <- app_assoc.
  - (* redo *)
    case_decide; [intros [= <-]; exact Hrefl|].
    unfold Litestore.getRecord. simpl.
    destruct (Litestore.gridState _) as [gs|] eqn:Hgs; [|done]. simpl.
    pose proof (emitCurrentChange_once (nextChange gs) (dataModel e)) as Hch.
    destruct (EditorModel.emitCurrentChange _ _) as [m evs].
    simpl in Hch. subst evs.
    assert (∀ s e',
      Some (selectCells s
         (record (Emitted <$> [nextChange gs])
            (setDataModel m
               (record [Redone]
                  (setLitestore (Litestore.redo (litestore e)) e)))))
      = Some e' → oneEvent e e') as Hs.
    { intros s e0 [= <-]. exists [Redone; Emitted (nextChange gs)].
      split_and!; [| apply step_redone |].
      - destruct s; simpl; by rewrite <- app_assoc.
      - exists gs. by destruct s. }
    destruct (Litestore.selection _); [apply Hs | apply (Hs None)].
  - (* save *)
    intros [= <-]. exists [Saved]. split_and!; [done | constructor | exact I].
Qed.

Lemma handlePaste_oneEvent text e e' :
  handlePaste text e = Some e' → oneEvent e e'.
Proof.
  unfold handlePaste. destruct (getSelectedRange e); [|done]. simpl.
  apply signalled_oneEvent, paste_once.
Qed.

Lemma onDelete_oneEvent e e' : onDelete e = Some e' → oneEvent e e'.
Proof. apply signalled_oneEvent, clearCells_once. Qed.

End EventFacts.

(** The editor model after the spec keeps the contract. *)
Lemma SpecModel_emitsOnce_noop m : Contract.emitsOnce (SpecModel.noop m).
Proof. done. Qed.

Lemma SpecModel_emitsOnce_edit m ru cu vu rows columns change :
  Contract.emitsOnce (SpecModel.edit m ru cu vu rows columns change).
Proof. by eexists. Qed.

Lemma SpecModel_clearRange_once region a b c d f m :
  Contract.emitsOnce (SpecModel.clearRange region a b c d f m).
Proof.
  unfold SpecModel.clearRange.
  repeat case_match;
    auto using SpecModel_emitsOnce_noop, SpecModel_emitsOnce_edit.
Qed.

#[global] Instance SpecModel_laws : Contract.Laws SpecModel.M.
Proof.
  split; simpl; intros;
    try apply SpecModel_clearRange_once;
    try (by eexists); try done.
  - unfold SpecModel.addRows. repeat case_match;
      auto using SpecModel_emitsOnce_noop, SpecModel_emitsOnce_edit.
  - unfold SpecModel.addColumns. repeat case_match;
      auto using SpecModel_emitsOnce_noop, SpecModel_emitsOnce_edit.
  - unfold SpecModel.removeRows. repeat case_match;
      auto using SpecModel_emitsOnce_noop, SpecModel_emitsOnce_edit.
  - unfold SpecModel.removeColumns. repeat case_match;
      auto using SpecModel_emitsOnce_noop, SpecModel_emitsOnce_edit.
  - unfold SpecModel.paste. repeat case_match;
      auto using SpecModel_emitsOnce_noop, SpecModel_emitsOnce_edit.
  - unfold SpecModel.clearCells. case_match;
      auto using SpecModel_emitsOnce_noop, SpecModel_clearRange_once.
Qed.

(** The contract at work on the editor's entry points for commands, pastes
    and the delete key: given that every editing method of the model sends
    exactly the one change event of the update it returns, and that the model
    sends one event for an undone and for a redone transaction, each of them
    adds to the history either no transaction and no event, or exactly one
    committed, undone or redone transaction and exactly one change event,
    which describes the region of that transaction; and [setData] of the
    earlier model sends exactly one event for the cell it writes. *)
Theorem one_event_per_transaction (M : Type) `{EditorModel.Ops M}
    `{!Contract.Laws M} :
  (∀ c (e e' : DSVEditor.t M),
     DSVEditor.onCommand c e = Some e' → Contract.oneEvent e e')
  ∧ (∀ text (e e' : DSVEditor.t M),
       DSVEditor.handlePaste text e = Some e' → Contract.oneEvent e e')
  ∧ (∀ e e' : DSVEditor.t M,
       DSVEditor.onDelete e = Some e' → Contract.oneEvent e e')
  ∧ (∀ (D : Type) header setField (m : EditableDSVModel.t D) row column
       value,
       ∃ m',
         EditableDSVModel.setData header setField DataModel.body row column
           value m = Some (true, m')
         ∧ EditableDSVModel.changed m'
           = EditableDSVModel.changed m
             ++ [DataModel.cells_changed DataModel.body row column 1 1]).
Proof.
  split_and!.
  - apply onCommand_oneEvent.
  - apply handlePaste_oneEvent.
  - apply onDelete_oneEvent.
  - intros. by eexists.
Qed.


(** ** Paste *)

Section PasteFacts.

Import Types DSVEditor SpecModel.

Lemma splitLines_nonempty s : splitLines s ≠ [].
Proof. destruct s; simpl; repeat case_match; done. Qed.

Lemma parseBlock_nonempty c text : parseBlock c text ≠ [].
Proof.
  unfold parseBlock. pose proof (splitLines_nonempty text).
  by destruct (splitLines text).
Qed.

(** The cells of a block put at an origin are the cells of the block, each
    moved by the origin. *)
Lemma elem_of_blockWrites row column block pr pc v :
  (pr, pc, v) ∈ blockWrites row column block
  ↔ ∃ (i j : nat) cells,
      block !! i = Some cells ∧ cells !! j = Some v
      ∧ pr = row + Z.of_nat i ∧ pc = column + Z.of_nat j.
Proof.
  unfold blockWrites. rewrite list_elem_of_join. split.
  - intros (l & Hin & (i & cells & -> & Hi)%elem_of_lookup_imap).
    apply elem_of_lookup_imap in Hin as (j & v' & [= -> -> ->] & Hj).
    by exists i, j, cells.
  - intros (i & j & cells & Hi & Hj & -> & ->).
    eexists. split; [|by eapply elem_of_lookup_imap_2].
    by apply (elem_of_lookup_imap_2
                (λ j v, (row + Z.of_nat i, column + Z.of_nat j, v))).
Qed.

Lemma blockWidth_bound block (i : nat) cells :
  block !! i = Some cells → Z.of_nat (length cells) ≤ blockWidth block.
Proof.
  revert i. induction block as [|r block IH]; intros [|i]; simpl; try done.
  - intros [= ->]. unfold blockWidth. simpl. lia.
  - intros Hi%IH. unfold blockWidth in *. simpl. lia.
Qed.

Lemma pretty_N_go_commaFree (x : N) s :
  commaFree s → commaFree (pretty_N_go x s).
Proof.
  revert s. induction (N.lt_wf_0 x) as [x _ IH]. intros s Hs.
  destruct (decide (x = 0)%N) as [->|Hx]; [by rewrite pretty_N_go_0|].
  rewrite pretty_N_go_step by lia. apply IH.
  - apply N.div_lt; lia.
  - split; [|done]. unfold pretty_N_char. repeat case_match; done.
Qed.

Lemma pretty_Z_commaFree (z : Z) : commaFree (pretty z).
Proof.
  unfold pretty, pretty_Z. destruct z as [|p|p].
  - by split.
  - unfold pretty, pretty_positive, pretty, pretty_N.
    case_decide; [by split|]. by apply pretty_N_go_commaFree.
  - simpl. split; [done|]. unfold pretty, pretty_positive, pretty, pretty_N.
    case_decide; [by split|]. by apply pretty_N_go_commaFree.
Qed.

Lemma append_comma_inj s s' t t' :
  commaFree s → commaFree s' →
  (s +:+ "," +:+ t = s' +:+ "," +:+ t')%string → s = s' ∧ t = t'.
Proof.
  revert s'. induction s as [|c s IH]; intros [|c' s'] Hs Hs' Heq;
    cbv [String.append] in Heq; fold String.append in Heq.
  - by injection Heq as ->.
  - injection Heq as Hc _. destruct Hs' as [Hne _]. by destruct Hne.
  - injection Heq as Hc _. destruct Hs as [Hne _]. by destruct Hne.
  - injection Heq as Hc Heq. destruct Hs as [_ Hs], Hs' as [_ Hs'].
    destruct (IH s' Hs Hs' Heq) as [-> ->]. by subst.
Qed.

(** Two cells share an overlay key only when they are the same cell. *)
Lemma cellKey_inj a b a' b' : cellKey a b = cellKey a' b' → a = a' ∧ b = b'.
Proof.
  unfold cellKey.
  intros [Ha Hb]%append_comma_inj; auto using pretty_Z_commaFree.
  split; by apply (inj pretty).
Qed.

(** The store takes the growth of an Index Map at its end. *)
Lemma splice_grow (l : list Z) (k n : Z) :
  0 ≤ n →
  ∃ sp,
    Litestore.splice l
      (default NULL_NUM_SPLICE
         (if decide (0 < n)
          then Some {| ListField.index := Z.of_nat (length l);
                       ListField.remove := 0;
                       ListField.values := seqZ k n |}
          else None)) = Some sp
    ∧ Litestore.insertedKeys sp = seqZ k n
    ∧ Litestore.spliceKeys l (Litestore.position sp)
        (length (Litestore.removedKeys sp)) (Litestore.insertedKeys sp)
      = l ++ seqZ k n.
Proof.
  intros Hn. unfold Litestore.splice, Litestore.spliceKeys.
  destruct (decide (0 < n)) as [Hpos|Hpos]; simpl.
  - rewrite decide_True by lia. eexists. split; [done|]. simpl.
    rewrite Nat2Z.id, Nat.add_0_r, take_ge, drop_ge, app_nil_r by lia. done.
  - rewrite decide_True by lia. eexists. split; [done|]. simpl.
    replace n with 0 by lia. by rewrite app_nil_r.
Qed.

(** What the paste writes into the overlay reads back, cell by cell. *)
Lemma paste_cells_lookup (rows columns : list Z) row column block
    (i j : nat) cells v rk ck :
  0 ≤ row → 0 ≤ column → NoDup rows → NoDup columns →
  block !! i = Some cells → cells !! j = Some v →
  rows !! Z.to_nat (row + Z.of_nat i) = Some rk →
  columns !! Z.to_nat (column + Z.of_nat j) = Some ck →
  (list_to_map
     (omap
        (λ w : Z * Z * string,
           rk ← rows !! Z.to_nat w.1.1;
           ck ← columns !! Z.to_nat w.1.2;
           Some (cellKey rk ck, Some w.2))
        (blockWrites row column block)) : MapUpdate)
    !! cellKey rk ck = Some (Some v).
Proof.
  intros Hrow Hcol Hrows Hcols Hi Hj Hrk Hck.
  apply elem_of_list_to_map_1'.
  - intros y ([[pr pc] v'] & Hw & Hg)%list_elem_of_omap. simpl in Hg.
    destruct (rows !! Z.to_nat pr) as [rk'|] eqn:Hrk'; [|done].
    destruct (columns !! Z.to_nat pc) as [ck'|] eqn:Hck'; [|done].
    simpl in Hg. injection Hg as Hkey <-.
    apply cellKey_inj in Hkey as [-> ->].
    apply elem_of_blockWrites in Hw as (i' & j' & cells' & Hi' & Hj' & -> & ->).
    pose proof (NoDup_lookup _ _ _ _ Hrows Hrk Hrk') as Hii.
    pose proof (NoDup_lookup _ _ _ _ Hcols Hck Hck') as Hjj.
    assert (i' = i) as -> by lia. assert (j' = j) as -> by lia.
    congruence.
  - apply list_elem_of_omap.
    exists (row + Z.of_nat i, column + Z.of_nat j, v). split.
    + apply elem_of_blockWrites. by exists i, j, cells.
    + simpl. by rewrite Hrk, Hck.
Qed.

Lemma NoDup_grow (l : list Z) (k n : Z) :
  NoDup l → (∀ x, x ∈ l → x < k) → NoDup (l ++ seqZ k n).
Proof.
  intros Hl Hk. apply NoDup_app. split_and!; [done | | apply NoDup_seqZ].
  intros x Hx%Hk [? _]%elem_of_seqZ. lia.
Qed.

(** The paste of a text at an origin inside the grid's quadrant: one edit
    that grows both maps at their ends and writes the cells of the block. *)
Lemma paste_result region row column text f m :
  0 ≤ row → 0 ≤ column →
  let block := parseBlock (delimiter m) text in
  let growRows := Z.max 0 (row + Z.of_nat (length block) - rowCount f) in
  let growColumns := Z.max 0 (column + blockWidth block - columnCount f) in
  SpecModel.paste region (Some row) (Some column) (Some text) f m
  = edit (mint (growRows + growColumns) m)
      (if decide (0 < growRows)
       then Some {| ListField.index := rowCount f; ListField.remove := 0;
                    ListField.values := seqZ (nextKey m) growRows |}
       else None)
      (if decide (0 < growColumns)
       then Some {| ListField.index := columnCount f; ListField.remove := 0;
                    ListField.values :=
                      seqZ (nextKey m + growRows) growColumns |}
       else None)
      (Some
         (list_to_map
            (omap
               (λ w : Z * Z * string,
                  rk ← (Litestore.rowMap f ++ seqZ (nextKey m) growRows)
                       !! Z.to_nat w.1.1;
                  ck ← (Litestore.columnMap f
                        ++ seqZ (nextKey m + growRows) growColumns)
                       !! Z.to_nat w.1.2;
                  Some (cellKey rk ck, Some w.2))
               (blockWrites row column block))))
      (rowCount f + growRows) (columnCount f + growColumns)
      (DataModel.cells_changed region row column
         (Z.of_nat (length block)) (blockWidth block)).
Proof.
  intros Hrow Hcol block growRows growColumns. unfold SpecModel.paste.
  fold block. pose proof (parseBlock_nonempty (delimiter m) text) as Hne.
  fold block in Hne. destruct block as [|r b] eqn:Hb; [done|].
  rewrite (Z.max_r 0 row), (Z.max_r 0 column) by done. done.
Qed.

(** The paste event on the first selection of the grid, with the editor model
    after the specification: it starts at that selection's top-left cell
    (least row, least column); the text is split into rows on line breaks and
    into columns on the delimiter; the row and column maps grow at their ends
    by as many fresh keys as the block reaches past them; every cell of the
    block reads back at its place from the origin; and all of it is one
    transaction on the undo stack. *)
Theorem paste_at_selection_origin (e : DSVEditor.t SpecModel.M) s rest text :
  let row := Z.min (SelectionModel.r1 s) (SelectionModel.r2 s) in
  let column := Z.min (SelectionModel.c1 s) (SelectionModel.c2 s) in
  let f := Litestore.record (litestore e) in
  let m := dataModel e in
  let block := parseBlock (delimiter m) text in
  let growRows := Z.max 0 (row + Z.of_nat (length block) - rowCount f) in
  let growColumns := Z.max 0 (column + blockWidth block - columnCount f) in
  selections e = s :: rest →
  0 ≤ row → 0 ≤ column →
  NoDup (Litestore.rowMap f) → NoDup (Litestore.columnMap f) →
  (∀ k, k ∈ Litestore.rowMap f ++ Litestore.columnMap f → k < nextKey m) →
  ∃ e' tx,
    handlePaste text e = Some e'
    ∧ Litestore.undoStack (litestore e')
      = tx :: Litestore.undoStack (litestore e)
    ∧ Litestore.insertedKeys (Litestore.rowSplice tx)
      = seqZ (nextKey m) growRows
    ∧ Litestore.insertedKeys (Litestore.columnSplice tx)
      = seqZ (nextKey m + growRows) growColumns
    ∧ Litestore.rowMap (Litestore.record (litestore e'))
      = Litestore.rowMap f ++ seqZ (nextKey m) growRows
    ∧ Litestore.columnMap (Litestore.record (litestore e'))
      = Litestore.columnMap f ++ seqZ (nextKey m + growRows) growColumns
    ∧ ∀ (i j : nat) cells v,
        block !! i = Some cells → cells !! j = Some v →
        ∃ rk ck,
          Litestore.rowMap (Litestore.record (litestore e'))
            !! Z.to_nat (row + Z.of_nat i) = Some rk
          ∧ Litestore.columnMap (Litestore.record (litestore e'))
              !! Z.to_nat (column + Z.of_nat j) = Some ck
          ∧ Litestore.valueMap (Litestore.record (litestore e'))
              !! cellKey rk ck = Some v.
Proof.
  intros row column f m block growRows growColumns Hsel Hrow Hcol Hrows
    Hcols Hfresh.
  rewrite (handlePaste_selected e s rest text Hsel). cbv zeta.
  unfold Litestore.getRecord. fold row column f m.
  change (EditorModel.paste DataModel.body (Some row) (Some column)
            (Some text) f m)
    with (SpecModel.paste DataModel.body (Some row) (Some column)
            (Some text) f m).
  rewrite (paste_result DataModel.body row column text f m Hrow Hcol).
  fold block growRows growColumns.
  destruct (splice_grow (Litestore.rowMap f) (nextKey m) growRows
              ltac:(lia)) as (rs & Hrs & Hrsi & Hrs').
  destruct (splice_grow (Litestore.columnMap f) (nextKey m + growRows)
              growColumns ltac:(lia)) as (cs & Hcs & Hcsi & Hcs').
  unfold edit, updateModel, absorb. simpl.
  unfold Litestore.commit, Litestore.transactionOf. simpl.
  unfold rowCount, columnCount. fold f. rewrite Hrs, Hcs. simpl.
  eexists. eexists. split; [reflexivity|]. simpl.
  split; [reflexivity|]. split; [exact Hrsi|]. split; [exact Hcsi|].
  rewrite Hrs', Hcs'. split; [reflexivity|]. split; [reflexivity|].
  intros i j cells v Hi Hj.
  pose proof (lookup_lt_Some _ _ _ Hi) as Hil.
  pose proof (lookup_lt_Some _ _ _ Hj) as Hjl.
  pose proof (blockWidth_bound _ _ _ Hi) as Hw.
  destruct (lookup_lt_is_Some_2
              (Litestore.rowMap f ++ seqZ (nextKey m) growRows)
              (Z.to_nat (row + Z.of_nat i))) as [rk Hrk].
  { rewrite length_app, length_seqZ. unfold growRows, rowCount. lia. }
  destruct (lookup_lt_is_Some_2
              (Litestore.columnMap f
               ++ seqZ (nextKey m + growRows) growColumns)
              (Z.to_nat (column + Z.of_nat j))) as [ck Hck].
  { rewrite length_app, length_seqZ. unfold growColumns, columnCount. lia. }
  exists rk, ck. split; [done|]. split; [done|].
  unfold Litestore.applyCells. rewrite lookup_merge.
  rewrite (paste_cells_lookup _ _ row column block i j cells v rk ck);
    try done.
  - apply NoDup_grow; [done|]. intros x Hx. apply Hfresh, elem_of_app.
    by left.
  - apply NoDup_grow; [done|]. intros x Hx.
    assert (x < nextKey m) by (apply Hfresh, elem_of_app; by right).
    unfold growRows. lia.
Qed.

End PasteFacts.

(** ** The scenarios, run *)

(** Provides the value an option-valued call computes to. *)
Ltac exists_value c :=
  let v := eval vm_compute in c in
  match v with
  | Some ?x => exists x
  end.

Ltac by_vm := vm_compute; reflexivity.

(** C2 at work: right after the load, undo changes nothing. *)
Lemma undo_only_sentinel_noop_witness :
  ∃ e, DSVEditor.session Scenario.model [] = Some e
       ∧ length (Litestore.undoStack (DSVEditor.litestore e)) = 1%nat
       ∧ DSVEditor.onCommand Types.Undo e = Some e.
Proof.
  exists_value (DSVEditor.session Scenario.model []).
  split; [by_vm|]. split; [by_vm|].
  apply undo_only_sentinel_noop. by_vm.
Defined.

(** C4 at work: two rows inserted and taken back leave a transaction to
    redo; a fresh commit clears it. *)
Lemma commit_clears_redo_witness :
  ∃ e e',
    DSVEditor.session Scenario.model
      [DSVEditor.Select [Scenario.cells 1 0 2 0];
       DSVEditor.Command Types.InsertRowsBelow;
       DSVEditor.Command Types.Undo] = Some e
    ∧ length (Litestore.redoStack (DSVEditor.litestore e)) = 1%nat
    ∧ DSVEditor.updateModel (Some Scenario.setCell) e = Some e'
    ∧ Litestore.redoStack (DSVEditor.litestore e') = []
    ∧ DSVEditor.onCommand Types.Redo e' = Some e'.
Proof.
  exists_value
    (DSVEditor.session Scenario.model
       [DSVEditor.Select [Scenario.cells 1 0 2 0];
        DSVEditor.Command Types.InsertRowsBelow;
        DSVEditor.Command Types.Undo]).
  match goal with
  | |- ∃ e', _ ∧ _ ∧ ?c = _ ∧ _ => exists_value c
  end.
  split; [by_vm|]. split; [by_vm|].
  match goal with
  | |- ?c = Some ?e' ∧ _ =>
      assert (c = Some e') as E by by_vm;
      split; [exact E|]; exact (commit_clears_redo _ _ _ E)
  end.
Defined.

(** C3 at work: the inserted rows come back with redo. *)
Lemma redo_pops_and_applies_witness :
  ∃ e e',
    DSVEditor.session Scenario.model
      [DSVEditor.Select [Scenario.cells 1 0 2 0];
       DSVEditor.Command Types.InsertRowsBelow;
       DSVEditor.Command Types.Undo] = Some e
    ∧ length (Litestore.redoStack (DSVEditor.litestore e)) = 1%nat
    ∧ DSVEditor.onCommand Types.Redo e = Some e'
    ∧ Litestore.redoStack (DSVEditor.litestore e') = []
    ∧ length (Litestore.undoStack (DSVEditor.litestore e')) = 2%nat
    ∧ Litestore.rowMap (Litestore.record (DSVEditor.litestore e'))
      = [0; 1; 2; 3; 4].
Proof.
  exists_value
    (DSVEditor.session Scenario.model
       [DSVEditor.Select [Scenario.cells 1 0 2 0];
        DSVEditor.Command Types.InsertRowsBelow;
        DSVEditor.Command Types.Undo]).
  match goal with
  | |- ∃ e', _ ∧ _ ∧ DSVEditor.onCommand _ ?e = _ ∧ _ =>
      let stack := eval vm_compute in
        (Litestore.redoStack (DSVEditor.litestore e)) in
      match stack with
      | [?tx] =>
          let g := eval vm_compute in (Litestore.gridStateCur tx) in
          match g with
          | Some ?gs =>
              destruct (proj2 (redo_pops_and_applies e) tx [] gs
                          ltac:(by_vm) ltac:(by_vm))
                as (e' & Hredo & Hr & Hu & Hrec)
          end
      end
  end.
  exists e'. split; [by_vm|]. split; [by_vm|]. split; [exact Hredo|].
  split; [exact Hr|]. rewrite Hu, Hrec. split; by_vm.
Defined.

(** C1 as the specification states it fails: a row is inserted, the user moves the selection
    to the first cell, and undo followed by redo leaves the selection where
    the row was inserted. *)
Lemma undo_redo_selection_counterexample :
  ∃ e e1 e2,
    DSVEditor.session Scenario.model
      [DSVEditor.Select [Scenario.cells 1 0 1 0];
       DSVEditor.Command Types.InsertRowsAbove;
       DSVEditor.Select [Scenario.cells 0 0 0 0]] = Some e
    ∧ length (Litestore.undoStack (DSVEditor.litestore e)) = 2%nat
    ∧ DSVEditor.onCommand Types.Undo e = Some e1
    ∧ DSVEditor.onCommand Types.Redo e1 = Some e2
    ∧ DSVEditor.currentSelection e = Some (Scenario.cells 0 0 0 0)
    ∧ DSVEditor.currentSelection e2 = Some (Scenario.cells 1 0 1 0)
    ∧ DSVEditor.currentSelection e2 ≠ DSVEditor.currentSelection e.
Proof.
  exists_value
    (DSVEditor.session Scenario.model
       [DSVEditor.Select [Scenario.cells 1 0 1 0];
        DSVEditor.Command Types.InsertRowsAbove;
        DSVEditor.Select [Scenario.cells 0 0 0 0]]).
  match goal with
  | |- ∃ e1 e2, _ ∧ _ ∧ ?c = _ ∧ _ => exists_value c
  end.
  match goal with
  | |- ∃ e2, _ ∧ _ ∧ _ ∧ ?c = _ ∧ _ => exists_value c
  end.
  split_and!; try by_vm. vm_compute. congruence.
Defined.

(** C1, as amended, at work on the same session. *)
Lemma undo_redo_restores_witness :
  ∃ e e1 e2,
    DSVEditor.session Scenario.model
      [DSVEditor.Select [Scenario.cells 1 0 1 0];
       DSVEditor.Command Types.InsertRowsAbove;
       DSVEditor.Select [Scenario.cells 0 0 0 0]] = Some e
    ∧ DSVEditor.onCommand Types.Undo e = Some e1
    ∧ DSVEditor.onCommand Types.Redo e1 = Some e2
    ∧ DSVEditor.litestore e2 = DSVEditor.litestore e
    ∧ DSVEditor.dirty e2 = DSVEditor.dirty e
    ∧ DSVEditor.selections e2 = [Scenario.cells 1 0 1 0].
Proof.
  exists_value
    (DSVEditor.session Scenario.model
       [DSVEditor.Select [Scenario.cells 1 0 1 0];
        DSVEditor.Command Types.InsertRowsAbove;
        DSVEditor.Select [Scenario.cells 0 0 0 0]]).
  match goal with
  | |- ∃ e1 e2, ?s = Some ?e ∧ _ =>
      assert (s = Some e) as E by by_vm;
      let g := eval vm_compute in
        (Litestore.gridState (Litestore.record (DSVEditor.litestore e))) in
      match g with
      | Some ?gs =>
          destruct (undo_redo_restores e gs (session_reachable _ _ _ E)
                      ltac:(vm_compute; lia) ltac:(by_vm))
            as (e1 & e2 & Hu & Hr & Hs & Hd & Hsel)
      end
  end.
  exists e1, e2. split; [exact E|]. split; [exact Hu|]. split; [exact Hr|].
  split; [exact Hs|]. split; [exact Hd|]. exact Hsel.
Defined.

(** The paste event at work: the selection was dragged from cell [(2, 2)]
    up to cell [(1, 1)]; the paste starts at [(1, 1)], mints a row and a
    column, and its cells read back. *)
Lemma paste_at_selection_origin_witness :
  ∃ e e',
    DSVEditor.session Scenario.model
      [DSVEditor.Select [Scenario.cells 2 2 1 1]] = Some e
    ∧ DSVEditor.handlePaste Scenario.pasted e = Some e'
    ∧ length (Litestore.undoStack (DSVEditor.litestore e')) = 2%nat
    ∧ Litestore.rowMap (Litestore.record (DSVEditor.litestore e'))
      = [0; 1; 2; 3]
    ∧ Litestore.columnMap (Litestore.record (DSVEditor.litestore e'))
      = [0; 1; 2; 4]
    ∧ Litestore.valueMap (Litestore.record (DSVEditor.litestore e'))
        !! SpecModel.cellKey 1 1 = Some "p"%string
    ∧ Litestore.valueMap (Litestore.record (DSVEditor.litestore e'))
        !! SpecModel.cellKey 3 2 = Some "w"%string.
Proof.
  exists_value
    (DSVEditor.session Scenario.model
       [DSVEditor.Select [Scenario.cells 2 2 1 1]]).
  match goal with
  | |- ∃ e', ?s = Some ?e ∧ _ =>
      destruct (paste_at_selection_origin e (Scenario.cells 2 2 1 1) []
                  Scenario.pasted)
        as (e' & tx & Hp & Hu & _ & _ & Hr & Hc & Hcells)
  end.
  - reflexivity.
  - simpl. lia.
  - simpl. lia.
  - apply (bool_decide_unpack _). by vm_compute.
  - apply (bool_decide_unpack _). by vm_compute.
  - apply Forall_forall, (bool_decide_unpack _). by vm_compute.
  - exists e'. split; [by_vm|]. split; [exact Hp|].
    split; [by rewrite Hu|]. split; [rewrite Hr; by_vm|].
    split; [rewrite Hc; by_vm|].
    rewrite Hr, Hc in Hcells. split.
    + destruct (Hcells 0%nat 0%nat ["p"; "q"; "r"]%string "p"%string)
        as (rk & ck & Hrk & Hck & Hv); [by_vm | by_vm |].
      vm_compute in Hrk, Hck. injection Hrk as <-. injection Hck as <-.
      exact Hv.
    + destruct (Hcells 2%nat 1%nat ["v"; "w"]%string "w"%string)
        as (rk & ck & Hrk & Hck & Hv); [by_vm | by_vm |].
      vm_compute in Hrk, Hck. injection Hrk as <-. injection Hck as <-.
      exact Hv.
Defined.

(** The contract at work, with the editor model after the spec: two rows
    are inserted. *)
Lemma one_event_per_transaction_witness :
  ∃ e e',
    DSVEditor.session Scenario.model
      [DSVEditor.Select [Scenario.cells 1 0 2 0]] = Some e
    ∧ DSVEditor.onCommand Types.InsertRowsBelow e = Some e'
    ∧ Contract.oneEvent e e'.
Proof.
  exists_value
    (DSVEditor.session Scenario.model
       [DSVEditor.Select [Scenario.cells 1 0 2 0]]).
  match goal with
  | |- ∃ e', _ ∧ ?c = _ ∧ _ => exists_value c
  end.
  split; [by_vm|]. split; [by_vm|].
  apply (proj1 (one_event_per_transaction SpecModel.M)
           Types.InsertRowsBelow).
  by_vm.
Defined.

(** C10 at work: a row is inserted, the file is saved, and rows are removed;
    the editor is dirty again. *)
Lemma dirty_iff_committed_since_save_witness :
  ∃ e,
    DSVEditor.session Scenario.model
      [DSVEditor.Select [Scenario.cells 1 0 1 0];
       DSVEditor.Command Types.InsertRowsAbove;
       DSVEditor.Command Types.Save;
       DSVEditor.Command Types.RemoveRows] = Some e
    ∧ DSVEditor.dirty e = true
    ∧ ∃ before ty after,
        DSVEditor.log e = before ++ DSVEditor.Committed ty :: after
        ∧ ty ≠ Some "init"%string ∧ DSVEditor.Saved ∉ after.
Proof.
  exists_value
    (DSVEditor.session Scenario.model
       [DSVEditor.Select [Scenario.cells 1 0 1 0];
        DSVEditor.Command Types.InsertRowsAbove;
        DSVEditor.Command Types.Save;
        DSVEditor.Command Types.RemoveRows]).
  match goal with
  | |- ?s = Some ?e ∧ _ =>
      assert (s = Some e) as E by by_vm;
      split; [exact E|]; split; [by_vm|];
      apply (proj2 (proj2 dirty_iff_committed_since_save) e
               (session_reachable _ _ _ E))
  end.
  by_vm.
Defined.

(** C5, where the code leaves the specification: two rows are inserted below rows 1
    and 2 and taken back, the user selects the first cell, and redo puts the
    selection on rows 2 and 3, one row down from the recorded rows 1 and 2,
    though the transaction inserted two rows. *)
Lemma redo_shifts_by_current_selection :
  ∃ e,
    DSVEditor.session Scenario.model
      [DSVEditor.Select [Scenario.cells 1 0 2 0];
       DSVEditor.Command Types.InsertRowsBelow;
       DSVEditor.Command Types.Undo;
       DSVEditor.Select [Scenario.cells 0 0 0 0];
       DSVEditor.Command Types.Redo] = Some e
    ∧ Litestore.rowMap (Litestore.record (DSVEditor.litestore e))
      = [0; 1; 2; 3; 4]
    ∧ Litestore.selection (Litestore.record (DSVEditor.litestore e))
      = Some (Scenario.cells 1 0 2 0)
    ∧ DSVEditor.selections e = [Scenario.cells 2 0 3 0].
Proof.
  exists_value
    (DSVEditor.session Scenario.model
       [DSVEditor.Select [Scenario.cells 1 0 2 0];
        DSVEditor.Command Types.InsertRowsBelow;
        DSVEditor.Command Types.Undo;
        DSVEditor.Select [Scenario.cells 0 0 0 0];
        DSVEditor.Command Types.Redo]).
  split_and!; by_vm.
Qed.

(** X14 at work.  The redo of the same session, by the rule of
    [redo_selects]: the spans are those of the selection on the first cell. *)
Lemma redo_selects_witness :
  ∃ e e',
    DSVEditor.session Scenario.model
      [DSVEditor.Select [Scenario.cells 1 0 2 0];
       DSVEditor.Command Types.InsertRowsBelow;
       DSVEditor.Command Types.Undo;
       DSVEditor.Select [Scenario.cells 0 0 0 0]] = Some e
    ∧ DSVEditor.rowsSelected e = 1
    ∧ DSVEditor.onCommand Types.Redo e = Some e'
    ∧ DSVEditor.selections e' = [Scenario.cells 2 0 3 0].
Proof.
  exists_value
    (DSVEditor.session Scenario.model
       [DSVEditor.Select [Scenario.cells 1 0 2 0];
        DSVEditor.Command Types.InsertRowsBelow;
        DSVEditor.Command Types.Undo;
        DSVEditor.Select [Scenario.cells 0 0 0 0]]).
  match goal with
  | |- ∃ e', _ ∧ _ ∧ DSVEditor.onCommand _ ?e = _ ∧ _ =>
      let stack := eval vm_compute in
        (Litestore.redoStack (DSVEditor.litestore e)) in
      match stack with
      | [?tx] =>
          let g := eval vm_compute in (Litestore.gridStateCur tx) in
          let sel := eval vm_compute in (Litestore.selectionCur tx) in
          match constr:((g, sel)) with
          | (Some ?gs, Some ?s) =>
              destruct (redo_selects e tx [] gs s ltac:(by_vm) ltac:(by_vm)
                          ltac:(by_vm))
                as (e' & Hredo & Hsel)
          end
      end
  end.
  exists e'. split; [by_vm|]. split; [by_vm|]. split; [exact Hredo|].
  exact Hsel.
Defined.

(** ** String searches, the column count and the title class *)

Section TextFacts.

Import JsText.

Lemma append_cons a (s t : string) :
  (String a s +:+ t = String a (s +:+ t))%string.
Proof. done. Qed.

Lemma append_nil_l (t : string) : (EmptyString +:+ t = t)%string.
Proof. done. Qed.

Lemma append_nil_r (s : string) : (s +:+ EmptyString = s)%string.
Proof. induction s as [|a s IH]; [done|]. by rewrite append_cons, IH. Qed.

Lemma append_assoc (s t u : string) :
  ((s +:+ t) +:+ u = s +:+ (t +:+ u))%string.
Proof. induction s as [|a s IH]; [done|]. by rewrite !append_cons, IH. Qed.

Lemma append_length (s t : string) :
  String.length (s +:+ t) = (String.length s + String.length t)%nat.
Proof. induction s as [|a s IH]; [done|]. rewrite append_cons. simpl. lia. Qed.

Lemma startsWith_true p s :
  startsWith p s = true ↔ ∃ rest, s = (p +:+ rest)%string.
Proof.
  revert s. induction p as [|a p IH]; intros s; simpl.
  - split; [by exists s | done].
  - destruct s as [|b s].
    + split; [done | by intros [rest Hr]].
    + destruct (Ascii.eqb_spec a b) as [->|Hne].
      * rewrite IH. split; intros [rest Hr]; exists rest.
        -- by rewrite append_cons, <- Hr.
        -- rewrite append_cons in Hr. by injection Hr.
      * split; [done|]. intros [rest Hr]. rewrite append_cons in Hr.
        by injection Hr.
Qed.

Lemma startsWith_self p rest : startsWith p (p +:+ rest) = true.
Proof. apply startsWith_true. by exists rest. Qed.

Lemma skip_length n s :
  String.length (skip n s) = (String.length s - n)%nat.
Proof.
  revert s. induction n as [|n IH]; intros [|c s]; simpl;
    first [done | apply IH].
Qed.

Lemma skip_skip n k s : skip n (skip k s) = skip (k + n) s.
Proof.
  revert s. induction k as [|k IH]; intros s; [done|].
  destruct s as [|c s]; simpl; [by destruct n | apply IH].
Qed.

Lemma skip_cons n s d t :
  skip n s = String d t → skip (S n) s = t ∧ (n < String.length s)%nat.
Proof.
  revert s. induction n as [|n IH]; intros [|c s]; simpl; try done.
  - intros [= -> ->]. split; [by destruct t | lia].
  - intros Hs. destruct (IH _ Hs) as [? ?]. split; [done | lia].
Qed.

Lemma skip_append (s t : string) : skip (String.length s) (s +:+ t) = t.
Proof. induction s as [|a s IH]; [by destruct t | done]. Qed.

Lemma slice_to_skip n s : (JsString.slice_to n s +:+ skip n s)%string = s.
Proof.
  revert s. induction n as [|n IH]; intros [|c s]; simpl; try done.
  by rewrite append_cons, IH.
Qed.

Lemma slice_to_append (s t : string) :
  JsString.slice_to (String.length s) (s +:+ t) = s.
Proof.
  induction s as [|a s IH]; [by destruct t|].
  rewrite append_cons. simpl. by rewrite IH.
Qed.

Lemma slice_to_withoutLast s :
  JsString.slice_to (String.length s - 1) s = withoutLast s.
Proof.
  induction s as [|c [|d s] IH]; [done | done |].
  replace (String.length (String c (String d s)) - 1)%nat
    with (S (String.length (String d s) - 1)) by (simpl; lia).
  change (withoutLast (String c (String d s)))
    with (String c (withoutLast (String d s))).
  rewrite <- IH. done.
Qed.

(** The search finds nothing, or the first position where [sub] starts. *)
Lemma indexOf_at_spec sub s i :
  (indexOf_at sub s i = -1 ∧ ∀ k, (k ≤ String.length s)%nat →
                                  startsWith sub (skip k s) = false)
  ∨ (∃ k : nat, indexOf_at sub s i = i + Z.of_nat k
        ∧ (k ≤ String.length s)%nat
        ∧ startsWith sub (skip k s) = true
        ∧ ∀ j, (j < k)%nat → startsWith sub (skip j s) = false).
Proof.
  revert i. induction s as [|d s IH]; intros i.
  - simpl. destruct (startsWith sub EmptyString) eqn:E.
    + right. exists 0%nat. split_and!; [lia | done | done | intros; lia].
    + left. split; [done|]. by intros [|k] ?.
  - cbn [indexOf_at]. destruct (startsWith sub (String d s)) eqn:E.
    + right. exists 0%nat. split_and!; [lia | simpl; lia | done | intros; lia].
    + destruct (IH (i + 1)) as [[E' Hno] | (k & E' & Hk & Hyes & Hlt)].
      * left. split; [done|]. intros [|k] Hk; [done|]. apply Hno.
        simpl in Hk. lia.
      * right. exists (S k). split_and!; [lia | simpl; lia | done |].
        intros [|j] Hj; [done|]. apply Hlt. lia.
Qed.

Lemma startsWith_length p s :
  startsWith p s = true → (String.length p ≤ String.length s)%nat.
Proof. intros [rest ->]%startsWith_true. rewrite append_length. lia. Qed.

(** [indexOf] with a start position, for a search string that is not
    empty: nothing, or a position from the start on at which [sub] fits. *)
Lemma indexOf_range sub s pos :
  sub ≠ EmptyString →
  indexOf sub s pos = -1
  ∨ (Z.max pos 0 ≤ indexOf sub s pos
     ∧ indexOf sub s pos + Z.of_nat (String.length sub)
       ≤ Z.of_nat (String.length s)).
Proof.
  intros Hsub. unfold indexOf.
  set (start := Z.to_nat (Z.min (Z.max pos 0) (Z.of_nat (String.length s)))).
  destruct (indexOf_at_spec sub (skip start s) (Z.of_nat start))
    as [[-> _] | (k & -> & Hk & Hyes & _)]; [by left | right].
  apply startsWith_length in Hyes. rewrite skip_skip, skip_length in Hyes.
  rewrite skip_length in Hk.
  assert (0 < String.length sub)%nat by (destruct sub; [done | simpl; lia]).
  lia.
Qed.

Lemma indexOf_0 sub s : indexOf sub s 0 = indexOf_at sub s 0.
Proof.
  unfold indexOf. by replace (Z.to_nat _) with 0%nat by lia.
Qed.

End TextFacts.

Section ColumnCount.

Import JsText ColumnHeader.

(** The loop over the occurrences of one character, from any position of
    the first row on. *)
Lemma countLoop_character c row t (k : nat) numCol fuel :
  skip k row = t →
  (String.length t < fuel)%nat →
  countLoop fuel row (String c EmptyString) numCol
    (indexOf_at (String c EmptyString) t (Z.of_nat k))
  = Some (numCol + occurrences c t).
Proof.
  revert k numCol fuel. induction t as [|d t IH]; intros k numCol fuel Hk Hf.
  - destruct fuel as [|fuel]; [simpl in Hf; lia|]. simpl. f_equal. lia.
  - cbn [indexOf_at startsWith occurrences].
    destruct (skip_cons _ _ _ _ Hk) as [Hk' Hlen]. simpl in Hf.
    rewrite (Ascii.eqb_sym d c).
    destruct (Ascii.eqb c d) eqn:E.
    + destruct fuel as [|fuel]; [lia|]. cbn [countLoop].
      replace (Z.of_nat k =? -1) with false by lia.
      unfold indexOf at 1.
      replace (Z.to_nat _) with (S k) by (simpl String.length; lia).
      rewrite Hk'.
      rewrite (IH (S k) (numCol + 1) fuel Hk') by lia. f_equal. lia.
    + replace (Z.of_nat k + 1) with (Z.of_nat (S k)) by lia.
      by rewrite (IH (S k) numCol fuel Hk') by lia.
Qed.

Lemma countLoop_empty fuel row numCol pos :
  pos ≠ -1 → countLoop fuel row EmptyString numCol pos = None.
Proof.
  revert numCol pos. induction fuel as [|fuel IH]; intros numCol pos Hpos;
    [done|].
  cbn [countLoop]. replace (pos =? -1) with false by lia.
  apply IH. unfold indexOf.
  match goal with |- indexOf_at _ ?s _ ≠ _ => destruct s end; simpl; lia.
Qed.

(** The loop for a search string that is not empty: it ends within the
    fuel the rest of the row asks for, and the occurrences it has counted
    fit in the row one after the other. *)
Lemma countLoop_ends fuel row sub numCol pos :
  sub ≠ EmptyString →
  let l := Z.of_nat (String.length sub) in
  let len := Z.of_nat (String.length row) in
  (pos = -1 ∧ (0 < fuel)%nat ∧ numCol * l ≤ len)
  ∨ (numCol * l ≤ pos ∧ pos + l ≤ len ∧ len - pos < Z.of_nat fuel) →
  0 ≤ numCol →
  ∃ n, countLoop fuel row sub numCol pos = Some n
       ∧ numCol ≤ n ∧ n * l ≤ len.
Proof.
  intros Hsub l len. revert numCol pos.
  assert (0 < l) as Hl by (subst l; destruct sub; [done | simpl; lia]).
  induction fuel as [|fuel IH]; intros numCol pos Hinv Hn; [lia|].
  cbn [countLoop]. destruct Hinv as [(-> & _ & Hfit) | (Hlo & Hhi & Hfuel)].
  - simpl. exists numCol. split_and!; [done | lia | done].
  - replace (pos =? -1) with false by nia.
    destruct (IH (numCol + 1)
                (indexOf sub row (pos + Z.of_nat (String.length sub))))
      as (n & Hrun & Hle & Hfit);
      [| lia | exists n; split_and!; [done | lia | done]].
    fold l.
    destruct (indexOf_range sub row (pos + l) Hsub) as [-> | [Hge Hle]].
    + left. split_and!; [done | lia | nia].
    + right. fold l len in Hle. split_and!; [nia | done | lia].
Qed.

End ColumnCount.

Section ColumnHeaderFacts.

Import JsText ColumnHeader.

(** X1. For a delimiter of one character, and fuel for one test of the loop
    per character of the first row and one more, [_countOccurrences] returns
    one more than the number of times the delimiter occurs in the first row. *)
Theorem countOccurrences_one_character (string : String.string)
    (c : Ascii.ascii) (rowDelimiter : String.string) (fuel : nat) :
  (String.length (firstRow string rowDelimiter) < fuel)%nat →
  countOccurrences fuel string (String c EmptyString) rowDelimiter
  = Some (occurrences c (firstRow string rowDelimiter) + 1).
Proof.
  intros Hf. unfold countOccurrences. rewrite indexOf_0.
  pose proof (countLoop_character c _ _ 0 0 fuel eq_refl Hf) as Hrun.
  simpl skip in Hrun. change (Z.of_nat 0) with 0 in Hrun. by rewrite Hrun.
Qed.

(** X2. With the empty string as the delimiter the loop of [_countOccurrences]
    never ends: whatever the fuel, the call has not returned. *)
Theorem countOccurrences_empty_never_ends (string rowDelimiter : String.string)
    (fuel : nat) :
  countOccurrences fuel string EmptyString rowDelimiter = None.
Proof.
  unfold countOccurrences. rewrite countLoop_empty; [done|].
  rewrite indexOf_0. by destruct (firstRow string rowDelimiter).
Qed.

(** X3. With a delimiter that is not empty [_countOccurrences] ends, with a
    count of at least one, and the occurrences it counted fit in the first row
    one after the other. *)
Theorem countOccurrences_ends (string substring rowDelimiter : String.string)
    (fuel : nat) :
  substring ≠ EmptyString →
  (String.length (firstRow string rowDelimiter) < fuel)%nat →
  ∃ numCol,
    countOccurrences fuel string substring rowDelimiter = Some numCol
    ∧ 1 ≤ numCol
    ∧ (numCol - 1) * Z.of_nat (String.length substring)
      ≤ Z.of_nat (String.length (firstRow string rowDelimiter)).
Proof.
  intros Hsub Hf. unfold countOccurrences.
  set (row := firstRow string rowDelimiter) in *.
  destruct (countLoop_ends fuel row substring 0 (indexOf substring row 0) Hsub)
    as (n & -> & Hn & Hfit); [| done |].
  - destruct (indexOf_range substring row 0 Hsub) as [-> | [Hge Hle]].
    + left. split_and!; [done | lia | lia].
    + right. split_and!; [lia | done | lia].
  - exists (n + 1). split_and!; [done | lia |].
    by replace (n + 1 - 1) with n by lia.
Qed.

(** X4. The first row [_countOccurrences] counts in: the text before the first
    row delimiter when there is one, and the whole text without its last
    character when there is none. *)
Theorem firstRow_spec (string rowDelimiter : String.string) :
  (includes string rowDelimiter = false
   ∧ firstRow string rowDelimiter = withoutLast string)
  ∨ (includes string rowDelimiter = true
     ∧ ∃ rest,
         string
         = (firstRow string rowDelimiter +:+ rowDelimiter +:+ rest)%string
         ∧ ∀ k, (k < String.length (firstRow string rowDelimiter))%nat →
                startsWith rowDelimiter (skip k string) = false).
Proof.
  unfold firstRow, includes. rewrite indexOf_0.
  destruct (indexOf_at_spec rowDelimiter string 0)
    as [[-> _] | (k & -> & Hk & Hyes & Hfirst)].
  - left. split; [done|]. unfold slice0. simpl.
    replace (Z.to_nat _) with (String.length string - 1)%nat by lia.
    apply slice_to_withoutLast.
  - right. split; [apply negb_true_iff; lia|].
    unfold slice0. replace (0 + Z.of_nat k <? 0) with false by lia.
    replace (Z.to_nat _) with k by lia.
    apply startsWith_true in Hyes as [rest Hrest]. exists rest.
    assert (String.length (JsString.slice_to k string) = k) as Hlen.
    { pose proof (slice_to_skip k string) as Hs.
      apply (f_equal String.length) in Hs.
      rewrite append_length, skip_length in Hs. lia. }
    split; [by rewrite <- Hrest, slice_to_skip|].
    rewrite Hlen. apply Hfirst.
Qed.

Lemma countLoop_ge fuel row sub numCol pos n :
  countLoop fuel row sub numCol pos = Some n → numCol ≤ n.
Proof.
  revert numCol pos. induction fuel as [|fuel IH]; intros numCol pos; [done|].
  cbn [countLoop]. destruct (pos =? -1); [intros [= <-]; lia|].
  intros Hn%IH. lia.
Qed.

Lemma chars_slice_to n s : chars (JsString.slice_to n s) = take n (chars s).
Proof.
  revert s. induction n as [|n IH]; intros [|c s]; simpl; try done.
  by rewrite IH.
Qed.

Lemma chars_length s : length (chars s) = String.length s.
Proof. induction s as [|c s IH]; simpl; [done | by rewrite IH]. Qed.

Lemma join_snoc sep l x :
  l ≠ [] → join sep (l ++ [x]) = (join sep l +:+ (sep +:+ x))%string.
Proof.
  induction l as [|a [|b l] IH]; intros Hl; [done | done |].
  change (join sep ((a :: b :: l) ++ [x]))
    with (a +:+ sep +:+ join sep ((b :: l) ++ [x]))%string.
  rewrite IH by done.
  change (join sep (a :: b :: l)) with (a +:+ sep +:+ join sep (b :: l))%string.
  by rewrite !append_assoc.
Qed.

Lemma foldl_join (f : Z → string) sep l (indices : list Z) :
  l ≠ [] →
  foldl (λ header i, (header +:+ (sep +:+ f i))%string) (join sep l) indices
  = join sep (l ++ (f <$> indices)).
Proof.
  revert l. induction indices as [|i indices IH]; intros l Hl; simpl.
  - by rewrite app_nil_r.
  - rewrite <- join_snoc by done. rewrite IH by (by destruct l).
    by rewrite <- app_assoc.
Qed.

(** X5. The header row [_buildColHeader] returns: column names joined by the
    column delimiter and closed by the guessed row delimiter. Up to 26 columns
    the names are the first letters of the alphabet, one per column; beyond
    that they are the 26 letters and the names of the numbers 27 to [numCol -
    1], which is one name fewer than there are columns. *)
Theorem buildColHeader_names (numberToCharacter : Z → string) (fuel : nat)
    (rawData colDelimiter : string) (numCol : Z) :
  countOccurrences fuel rawData colDelimiter
    (DSVEditor.guessRowDelimeter rawData) = Some numCol →
  let names :=
    if numCol <=? 26 then take (Z.to_nat numCol) (chars alphabet)
    else chars alphabet ++ (numberToCharacter <$> seqZ 27 (numCol - 27)) in
  buildColHeader numberToCharacter fuel rawData colDelimiter
  = Some (join colDelimiter names
          +:+ DSVEditor.guessRowDelimeter rawData)%string
  ∧ Z.of_nat (length names) = (if numCol <=? 26 then numCol else numCol - 1).
Proof.
  intros Hcount. unfold buildColHeader. rewrite Hcount.
  cbv beta iota zeta delta [mbind option_bind].
  assert (1 ≤ numCol) as Hpos.
  { unfold countOccurrences in Hcount.
    destruct (countLoop _ _ _ _ _) as [n|] eqn:Hloop; [|done].
    apply countLoop_ge in Hloop. injection Hcount as <-. lia. }
  destruct (numCol <=? 26) eqn:Hle.
  - split.
    + unfold slice0. replace (numCol <? 0) with false by lia.
      rewrite chars_slice_to.
      replace (Z.to_nat (numCol `min` _)) with (Z.to_nat numCol); [done|].
      change (Z.of_nat (String.length alphabet)) with 26. lia.
    + rewrite length_take, chars_length.
      change (String.length alphabet) with 26%nat. lia.
  - split.
    + by rewrite foldl_join.
    + rewrite length_app, length_fmap, length_seqZ, chars_length.
      change (String.length alphabet) with 26%nat. lia.
Qed.

End ColumnHeaderFacts.

Section TitleFacts.

Import JsText Title.

Local Arguments Ascii.eqb : simpl never.

(** No occurrence of the dirty class can begin in the text before it and
    end inside it: the class starts with the only [j] it holds. *)
Lemma startsWith_DIRTY_CLASS_overlap (t : string) :
  t ≠ EmptyString →
  startsWith DIRTY_CLASS (t +:+ DIRTY_CLASS) = startsWith DIRTY_CLASS t.
Proof.
  intros Ht. unfold DIRTY_CLASS.
  do 12 (destruct t as [|? t];
         [ try done; rewrite ?append_cons, ?append_nil_l; simpl;
           repeat match goal with
                  | |- context [Ascii.eqb ?a ?c] =>
                      is_var c; destruct (Ascii.eqb a c); [|reflexivity]
                  end; reflexivity
         | ]).
  rewrite ?append_cons. simpl.
  repeat match goal with
         | |- context [Ascii.eqb ?a ?c] =>
             is_var c; destruct (Ascii.eqb a c); [|reflexivity]
         end; reflexivity.
Qed.

Lemma indexOf_at_append_DIRTY_CLASS (s : string) (i : Z) :
  0 ≤ i →
  indexOf_at DIRTY_CLASS s i = -1 →
  indexOf_at DIRTY_CLASS (s +:+ DIRTY_CLASS) i
  = i + Z.of_nat (String.length s).
Proof.
  revert i. induction s as [|c s IH]; intros i Hi Hno.
  - rewrite append_nil_l. simpl. lia.
  - cbn [indexOf_at] in Hno.
    destruct (startsWith DIRTY_CLASS (String c s)) eqn:E; [lia|].
    pose proof (startsWith_DIRTY_CLASS_overlap (String c s)) as Ho.
    rewrite append_cons in *. cbn [indexOf_at].
    rewrite Ho, E by done. rewrite IH by (done || lia).
    simpl String.length. lia.
Qed.

Lemma includes_false s sub :
  includes s sub = false ↔ indexOf_at sub s 0 = -1.
Proof.
  unfold includes. rewrite indexOf_0, negb_false_iff. lia.
Qed.

Lemma includes_append_DIRTY_CLASS s :
  includes s DIRTY_CLASS = false →
  includes (s +:+ DIRTY_CLASS) DIRTY_CLASS = true.
Proof.
  intros Hs%includes_false. unfold includes.
  rewrite indexOf_0, indexOf_at_append_DIRTY_CLASS by done.
  apply negb_true_iff, Z.eqb_neq. lia.
Qed.

Lemma replace_append_DIRTY_CLASS s :
  includes s DIRTY_CLASS = false →
  replace (s +:+ DIRTY_CLASS) DIRTY_CLASS EmptyString = s.
Proof.
  intros Hs%includes_false. unfold replace.
  rewrite indexOf_0, indexOf_at_append_DIRTY_CLASS by done.
  rewrite (proj2 (Z.eqb_neq _ _)) by lia.
  unfold slice0. rewrite (proj2 (Z.ltb_ge _ _)) by lia.
  rewrite append_length.
  replace (Z.to_nat (_ `min` _)) with (String.length s) by lia.
  replace (Z.to_nat (0 + Z.of_nat (String.length s))) with (String.length s)
    by lia.
  rewrite slice_to_append, <- skip_skip, skip_append, append_nil_l.
  change (skip (String.length DIRTY_CLASS) DIRTY_CLASS) with EmptyString.
  apply append_nil_r.
Qed.

Lemma replace_absent s sub :
  includes s sub = false → replace s sub EmptyString = s.
Proof.
  intros Hs%includes_false. unfold replace. by rewrite indexOf_0, Hs.
Qed.

(** X6. After the flag has been raised through the setter the title's class
    holds the dirty class, whatever it held before, and a class that held it
    already is left as it is. *)
Theorem set_dirty_true_marks (w : Title.t) :
  includes (className (set_dirty true w)) DIRTY_CLASS = true
  ∧ (includes (className w) DIRTY_CLASS = true →
     className (set_dirty true w) = className w).
Proof.
  unfold set_dirty. simpl.
  destruct (includes (className w) DIRTY_CLASS) eqn:E; simpl; [done|].
  split; [by apply includes_append_DIRTY_CLASS | done].
Qed.

Lemma set_dirty_step base d (w : Title.t) :
  includes base DIRTY_CLASS = false →
  className w
  = (if dirty w then (base +:+ DIRTY_CLASS)%string else base) →
  dirty (set_dirty d w) = d
  ∧ className (set_dirty d w)
    = (if d then (base +:+ DIRTY_CLASS)%string else base).
Proof.
  intros Hbase Hw. unfold set_dirty. simpl. rewrite Hw.
  destruct d, (dirty w); simpl.
  - by rewrite includes_append_DIRTY_CLASS.
  - by rewrite Hbase.
  - by rewrite replace_append_DIRTY_CLASS.
  - by rewrite replace_absent.
Qed.

(** X7. From a title class without the dirty class, any sequence of sets of
    the flag leaves the flag at the last value set and the title at the class
    it started from, with the dirty class appended to it exactly when the flag
    is raised. *)
Theorem title_class_follows_dirty (base : string) (sets : list bool) :
  includes base DIRTY_CLASS = false →
  let w :=
    foldl (λ w d, set_dirty d w) {| dirty := false; className := base |}
      sets in
  dirty w = default false (last sets)
  ∧ className w
    = (if dirty w then (base +:+ DIRTY_CLASS)%string else base).
Proof.
  intros Hbase. induction sets as [|d sets IH] using rev_ind; [done|].
  simpl in *. rewrite foldl_app, last_snoc. simpl.
  destruct IH as [_ IH].
  destruct (set_dirty_step base d _ Hbase IH) as [-> ->]. done.
Qed.

End TitleFacts.

Section FragmentFacts.

Import JsText Fragment.

Lemma mentions_app c (a b : string) :
  mentions c (a +:+ b) = mentions c a || mentions c b.
Proof.
  induction a as [|d a IH]; [done|].
  rewrite append_cons. simpl. rewrite IH. by destruct (Ascii.eqb d c).
Qed.

(** The first piece [split] returns: the text before the first separator,
    or all of it. *)
Lemma split_first c s :
  ∃ x l, split c s = x :: l
         ∧ mentions c x = false
         ∧ ((l = [] ∧ s = x)
            ∨ ∃ rest, s = (x +:+ String c rest)%string ∧ l = split c rest).
Proof.
  induction s as [|d s (x & l & Hs & Hx & Hcases)]; simpl.
  - exists EmptyString, []. split_and!; [done | done | by left].
  - destruct (Ascii.eqb_spec d c) as [->|Hne].
    + exists EmptyString, (split c s). split_and!; [done | done |].
      right. by exists s.
    + rewrite Hs. exists (String d x), l. split_and!; [done | |].
      * simpl. rewrite Hx. by apply Ascii.eqb_neq in Hne as ->.
      * destruct Hcases as [[-> ->] | (rest & -> & ->)]; [by left|].
        right. by exists rest.
Qed.

(** Before a piece that holds no separator, [split] only lengthens the
    first piece. *)
Lemma split_app c (r t : string) :
  mentions c r = false →
  split c (r +:+ t)
  = (r +:+ default EmptyString (head (split c t)))%string
    :: tail (split c t).
Proof.
  induction r as [|d r IH]; simpl.
  - intros _. rewrite !append_nil_l.
    destruct (split_first c t) as (x & l & -> & _). done.
  - intros [Hd Hr]%orb_false_elim. rewrite ?append_cons. simpl.
    rewrite Hd, IH by done. by rewrite ?append_cons.
Qed.

Lemma split_free c (r : string) : mentions c r = false → split c r = [r].
Proof.
  intros Hr. rewrite <- (append_nil_r r) at 1. rewrite split_app by done.
  simpl. by rewrite append_nil_r.
Qed.

Lemma split_cons_separator c (t : string) :
  split c (String c t) = EmptyString :: split c t.
Proof. simpl. by rewrite Ascii.eqb_refl. Qed.

Lemma split_lookup_0 c s : split c s !! 0%nat = Some (upto c s).
Proof. unfold upto. by destruct (split_first c s) as (x & l & -> & _). Qed.

Lemma upto_prefix c s :
  ∃ rest, s = (upto c s +:+ rest)%string
          ∧ mentions c (upto c s) = false
          ∧ (rest = EmptyString ∨ ∃ rest', rest = String c rest').
Proof.
  unfold upto. destruct (split_first c s) as (x & l & -> & Hx & Hcases). simpl.
  destruct Hcases as [[_ ->] | (rest & -> & _)].
  - exists EmptyString. split_and!; [by rewrite append_nil_r | done | by left].
  - exists (String c rest). split_and!; [done | done | right; by exists rest].
Qed.

Lemma upto_app c (r t : string) :
  mentions c r = false → upto c (r +:+ t) = (r +:+ upto c t)%string.
Proof. intros Hr. unfold upto. by rewrite split_app. Qed.

Lemma upto_free c (r : string) : mentions c r = false → upto c r = r.
Proof. intros Hr. unfold upto. by rewrite split_free. Qed.

Lemma upto_separator c (t : string) : upto c (String c t) = EmptyString.
Proof. unfold upto. by rewrite split_cons_separator. Qed.

Lemma upto_cons_other c d (t : string) :
  Ascii.eqb d c = false → upto c (String d t) = String d (upto c t).
Proof.
  intros Hd. unfold upto. simpl. rewrite Hd.
  by destruct (split_first c t) as (x & l & -> & _).
Qed.

Lemma upto_stops c (r t : string) :
  mentions c r = false → upto c (r +:+ String c t) = r.
Proof.
  intros Hr. by rewrite upto_app, upto_separator, append_nil_r.
Qed.

(** What [setFragment] hands on for a fragment that begins with [#row=]:
    the text up to the first [=], of it the text up to the first [;], and
    of that the text up to the first [-]. *)
Lemma setFragment_row (rows : string) :
  setFragment ("#row=" +:+ rows)
  = Some (GoToLine (upto hyphen (upto semicolon (upto equals rows)))).
Proof.
  unfold setFragment.
  change ("#row=" +:+ rows)%string with ("#row" +:+ String equals rows)%string.
  rewrite (split_app equals "#row") by done.
  rewrite split_cons_separator.
  rewrite decide_False by (intros Hne; by apply Hne).
  change ((?x :: tail (?y :: ?l)) !! 1%nat) with (l !! 0%nat).
  by repeat (rewrite split_lookup_0; cbn [mbind option_bind]).
Qed.

(** X8. Which fragments make [setFragment] go to a line, and to which: the
    fragments [#row=] followed by the row text, which holds none of [=], [;]
    and [-], and then by nothing or by a rest that begins with one of the
    three. *)
Theorem setFragment_goToLine (fragment topRow : string) :
  setFragment fragment = Some (GoToLine topRow)
  ↔ ∃ rest,
      fragment = ("#row=" +:+ topRow +:+ rest)%string
      ∧ mentions equals topRow = false
      ∧ mentions semicolon topRow = false
      ∧ mentions hyphen topRow = false
      ∧ (rest = EmptyString
         ∨ ∃ d rest', rest = String d rest'
                      ∧ (d = equals ∨ d = semicolon ∨ d = hyphen)).
Proof.
  split.
  - intros Hgo.
    assert (∃ rows, fragment = ("#row=" +:+ rows)%string) as [rows ->].
    { unfold setFragment in Hgo.
      destruct (split_first equals fragment) as (x & l & Hs & _ & Hcases).
      rewrite Hs in Hgo. case_decide as Hx; [done|].
      injection Hx as ->.
      destruct Hcases as [[-> _] | (rows & -> & _)]; [done|]. by exists rows. }
    rewrite setFragment_row in Hgo. injection Hgo as <-.
    destruct (upto_prefix equals rows) as (t1 & H1 & Hf1 & Ht1).
    destruct (upto_prefix semicolon (upto equals rows))
      as (t2 & H2 & Hf2 & Ht2).
    destruct (upto_prefix hyphen (upto semicolon (upto equals rows)))
      as (t3 & H3 & Hf3 & Ht3).
    set (z := upto hyphen (upto semicolon (upto equals rows))) in *.
    exists (t3 +:+ t2 +:+ t1)%string. split_and!.
    + f_equal. rewrite H1 at 1. rewrite H2 at 1. rewrite H3 at 1.
      by rewrite !append_assoc.
    + rewrite H2, H3, !mentions_app in Hf1.
      by apply orb_false_elim in Hf1 as [[? _]%orb_false_elim _].
    + rewrite H3, mentions_app in Hf2. by apply orb_false_elim in Hf2 as [? _].
    + done.
    + destruct Ht3 as [-> | (r3 & ->)];
        [|right; exists hyphen, (r3 +:+ t2 +:+ t1)%string; auto].
      destruct Ht2 as [-> | (r2 & ->)];
        [|right; exists semicolon, (r2 +:+ t1)%string; auto].
      destruct Ht1 as [-> | (r1 & ->)]; [by left|].
      right. exists equals, r1. auto.
  - intros (rest & -> & He & Hs & Hh & Hrest).
    rewrite setFragment_row. do 2 f_equal.
    destruct Hrest as [-> | (d & rest' & -> & [-> | [-> | ->]])].
    + rewrite append_nil_r.
      by rewrite (upto_free equals), (upto_free semicolon),
        (upto_free hyphen) by done.
    + rewrite upto_stops by done.
      by rewrite (upto_free semicolon), (upto_free hyphen) by done.
    + rewrite upto_app, (upto_cons_other equals semicolon) by done.
      rewrite upto_stops by done. by rewrite upto_free by done.
    + rewrite upto_app, (upto_cons_other equals hyphen) by done.
      rewrite upto_app, (upto_cons_other semicolon hyphen) by done.
      by rewrite upto_stops by done.
Qed.

(** X9. The one fragment on which [setFragment] throws is [#row] itself, which
    passes the test of the name and has nothing after it to split. *)
Theorem setFragment_throws (fragment : string) :
  setFragment fragment = None ↔ fragment = "#row"%string.
Proof.
  split; [|by intros ->].
  intros Hnone.
  destruct (split_first equals fragment) as (x & l & Hs & _ & Hcases).
  assert (x = "#row"%string) as ->.
  { unfold setFragment in Hnone. rewrite Hs in Hnone.
    case_decide as Hx; [done|]. by injection Hx. }
  destruct Hcases as [[_ ->] | (rows & -> & _)]; [done|].
  change ("#row" +:+ String equals rows)%string
    with ("#row=" +:+ rows)%string in Hnone.
  by rewrite setFragment_row in Hnone.
Qed.

End FragmentFacts.

Section GetterFacts.

Context {D : Type}.

(** X10. The getter [dsvModel] of the editable model never returns: to
    whatever depth its calls are followed, no value has come back. *)
Theorem dsvModel_never_returns (fuel : nat) (this : D) :
  DsvModelGetter.dsvModel fuel this = None.
Proof. induction fuel as [|fuel IH]; [done | exact IH]. Qed.

End GetterFacts.

(** ** The dirty flag and the selection across commands *)

Section CommandFacts.

Import Types DSVEditor.

Context {M : Type} `{EditorModel.Ops M}.

Implicit Types e : DSVEditor.t M.

Local Arguments updateModel : simpl never.

(** [updateModel] leaves the selections of the grid alone, and the flag
    as it is or raised. *)
Lemma updateModel_frame u e e' :
  updateModel u e = Some e' →
  selections e' = selections e
  ∧ (dirty e' = dirty e ∨ dirty e' = true).
Proof.
  destruct u as [u|]; [|intros [= <-]; auto].
  intros (ru & store & _ & _ & ->)%updateModel_Some. simpl.
  split; [done|]. case_decide; auto.
Qed.

Lemma afterSwitch_raised c sel r r1 r2 c1 c2 e e' :
  afterSwitch c sel r r1 r2 c1 c2 e = Some e' →
  dirty e = true → dirty e' = true.
Proof.
  unfold afterSwitch. intros Ha Hd.
  destruct (EditorModel.update r) as [u|].
  - destruct (gridStateUpdate u) as [gs|]; [|done]. simpl in Ha.
    apply updateModel_frame in Ha as [_ [-> | ->]]; [|done].
    by destruct (mkSelection r1 r2 c1 c2).
  - by apply updateModel_frame in Ha as [_ [-> | ->]].
Qed.

Lemma switch_dirty (c : Commands) e e' :
  c = Undo ∨ c = Redo → onCommand c e = Some e' → dirty e' = dirty e.
Proof.
  intros [-> | ->]; unfold onCommand.
  - case_decide; [by intros [= <-]|].
    destruct (EditorModel.emitOppositeChange _ _) as [m evs].
    intros [= <-]. by destruct (Litestore.selection _).
  - case_decide; [by intros [= <-]|]. simpl.
    destruct (Litestore.gridState _) as [gs|]; [|done]. simpl.
    destruct (EditorModel.emitCurrentChange _ _) as [m evs].
    destruct (Litestore.selection _) as [s|]; [|by intros [= <-]].
    intros [= <-]. by destruct (redoSelection _ _ _ _ s).
Qed.

(** X11. The undo command leaves the editor as it is when the undo stack
    holds one transaction, and puts the store in its undone state when it
    holds any other number; the redo command leaves the editor as it is when
    the redo stack is empty, and puts the store in its redone state when it is
    not. Either way the dirty flag stays as the command finds it: a document
    that was saved and then had an edit undone is still taken for clean. *)
Theorem undo_redo_keep_dirty (c : Commands) e e' :
  c = Undo ∨ c = Redo →
  onCommand c e = Some e' →
  dirty e' = dirty e
  ∧ match c with
    | Undo =>
        if decide (length (Litestore.undoStack (litestore e)) = 1%nat)
        then e' = e
        else litestore e' = Litestore.undo (litestore e)
    | _ =>
        if decide (length (Litestore.redoStack (litestore e)) = 0%nat)
        then e' = e
        else litestore e' = Litestore.redo (litestore e)
    end.
Proof.
  intros Hc Hrun. split; [by eapply switch_dirty|].
  destruct Hc as [-> | ->]; unfold onCommand in Hrun.
  - case_decide; [by injection Hrun|].
    destruct (EditorModel.emitOppositeChange _ _) as [m evs].
    injection Hrun as <-. by destruct (Litestore.selection _).
  - case_decide; [by injection Hrun|]. simpl in Hrun.
    destruct (Litestore.gridState _) as [gs|]; [|done]. simpl in Hrun.
    destruct (EditorModel.emitCurrentChange _ _) as [m evs].
    destruct (Litestore.selection _) as [s|];
      [destruct (redoSelection _ _ _ _ s)|];
      by injection Hrun as <-.
Qed.

(** X12. Only the save command lowers the dirty flag: after any other command,
    a paste, the delete key, a signal of the model, a change of the selection
    or the end of context activity, a raised flag is still raised. *)
Theorem dirty_lowered_only_by_save (a : Action) e e' :
  a ≠ Command Save →
  perform a e = Some e' →
  dirty e = true →
  dirty e' = true.
Proof.
  intros Ha Hp Hd. destruct a as [c| | | | |]; simpl in Hp.
  - destruct c; try done; unfold onCommand in Hp;
      try (by eapply afterSwitch_raised);
      try (by apply updateModel_frame in Hp as [_ [-> | ->]]).
    + rewrite <- Hd. by apply (switch_dirty Undo); [left|].
    + rewrite <- Hd. by apply (switch_dirty Redo); [right|].
  - unfold handlePaste in Hp. destruct (getSelectedRange e); [|done].
    simpl in Hp. by apply updateModel_frame in Hp as [_ [-> | ->]].
  - unfold onDelete, onModelSignal in Hp.
    by apply updateModel_frame in Hp as [_ [-> | ->]].
  - unfold onModelSignal in Hp.
    by apply updateModel_frame in Hp as [_ [-> | ->]].
  - by injection Hp as <-.
  - by injection Hp as <-.
Qed.

(** The spans of the selection are the distance of its normalised
    bounds. *)
Lemma rowsSelected_bounds e s :
  currentSelection e = Some s →
  rowsSelected e
  = Z.max (SelectionModel.r1 s) (SelectionModel.r2 s)
    - Z.min (SelectionModel.r1 s) (SelectionModel.r2 s) + 1
  ∧ columnsSelected e
    = Z.max (SelectionModel.c1 s) (SelectionModel.c2 s)
      - Z.min (SelectionModel.c1 s) (SelectionModel.c2 s) + 1.
Proof. unfold rowsSelected, columnsSelected. intros ->. lia. Qed.

Lemma afterSwitch_selects c sel r (a b c1 c2 : Z) e e' :
  EditorModel.update r ≠ None →
  afterSwitch c sel r (Some a) (Some b) (Some c1) (Some c2) e = Some e' →
  selections e'
  = [{| SelectionModel.r1 := a; SelectionModel.c1 := c1;
        SelectionModel.r2 := b; SelectionModel.c2 := c2 |}].
Proof.
  unfold afterSwitch. intros Hu Ha.
  destruct (EditorModel.update r) as [u|]; [|done].
  destruct (gridStateUpdate u) as [gs|]; [|done]. simpl in Ha.
  by apply updateModel_frame in Ha as [-> _].
Qed.

(** X13. After a command that inserts rows, above or below, the selection is
    the block of rows the model was asked to insert: as many rows as were
    selected, from the first selected row for an insertion above and from the
    row after the last selected one for an insertion below; the columns of the
    selection stay. The same holds for columns inserted to the left and to the
    right. *)
Theorem insert_selects_inserted e e' (s : SelectionModel.Selection)
    (after : bool) :
  currentSelection e = Some s →
  let top := Z.min (SelectionModel.r1 s) (SelectionModel.r2 s) in
  let bottom := Z.max (SelectionModel.r1 s) (SelectionModel.r2 s) in
  let left := Z.min (SelectionModel.c1 s) (SelectionModel.c2 s) in
  let right := Z.max (SelectionModel.c1 s) (SelectionModel.c2 s) in
  let fields := Litestore.getRecord (litestore e) in
  (let count := bottom - top + 1 in
   let index := if after then bottom + 1 else top in
   EditorModel.update
     (EditorModel.addRows DataModel.body (Some index) count fields
        (dataModel e)) ≠ None →
   onCommand (if after then InsertRowsBelow else InsertRowsAbove) e
   = Some e' →
   selections e'
   = [{| SelectionModel.r1 := index; SelectionModel.c1 := left;
         SelectionModel.r2 := index + count - 1;
         SelectionModel.c2 := right |}])
  ∧ (let count := right - left + 1 in
     let index := if after then right + 1 else left in
     EditorModel.update
       (EditorModel.addColumns DataModel.body (Some index) count fields
          (dataModel e)) ≠ None →
     onCommand (if after then InsertColumnsRight else InsertColumnsLeft) e
     = Some e' →
     selections e'
     = [{| SelectionModel.r1 := top; SelectionModel.c1 := index;
           SelectionModel.r2 := bottom;
           SelectionModel.c2 := index + count - 1 |}]).
Proof.
  intros Hs top bottom left right fields.
  destruct (rowsSelected_bounds e s Hs) as [Hrows Hcols].
  fold top bottom in Hrows. fold left right in Hcols.
  split; intros count index Hu Hrun; unfold onCommand in Hrun;
    rewrite Hs in Hrun; simpl in Hrun; destruct after; subst index;
    fold top bottom left right fields in Hrun;
    rewrite ?Hrows, ?Hcols in Hrun; fold count in Hrun;
    apply afterSwitch_selects in Hrun; try done; rewrite Hrun;
    f_equal; f_equal; lia.
Qed.

End CommandFacts.

(** ** The added properties, run *)

(** X1 at work. A file of two rows and three columns: the count is one more
    than the two commas of its first row. *)
Lemma countOccurrences_one_character_witness :
  let text := ("a,b,c" +:+ String JsString.LF "1,2,3")%string in
  let lf := String JsString.LF EmptyString in
  (String.length (ColumnHeader.firstRow text lf) < 10)%nat
  ∧ ColumnHeader.countOccurrences 10 text "," lf = Some 3.
Proof.
  intros text lf.
  assert (String.length (ColumnHeader.firstRow text lf) < 10)%nat as Hfuel
    by (vm_compute; lia).
  split; [exact Hfuel|].
  by rewrite (countOccurrences_one_character text _ lf 10 Hfuel).
Defined.

(** X3 at work. A delimiter of two characters, three columns. *)
Lemma countOccurrences_ends_witness :
  let text := ("a::b::c" +:+ String JsString.LF "1::2::3")%string in
  let lf := String JsString.LF EmptyString in
  ∃ numCol,
    ColumnHeader.countOccurrences 10 text "::" lf = Some numCol
    ∧ 1 ≤ numCol
    ∧ (numCol - 1) * 2 ≤ 7.
Proof.
  intros text lf.
  apply (countOccurrences_ends text "::" lf 10); [done | vm_compute; lia].
Defined.

(** X5 at work. A first row of 27 empty fields: the header names the 26
    letters, one name fewer than there are columns; no number is asked for its
    name. *)
Lemma buildColHeader_names_witness :
  let text :=
    (",,,,,,,,,,,,,,,,,,,,,,,,,," +:+ String JsString.LF EmptyString)%string in
  let numberToCharacter := λ _ : Z, "AA"%string in
  ColumnHeader.countOccurrences 40 text ","
    (DSVEditor.guessRowDelimeter text) = Some 27
  ∧ ColumnHeader.buildColHeader numberToCharacter 40 text ","
    = Some ("A,B,C,D,E,F,G,H,I,J,K,L,M,N,O,P,Q,R,S,T,U,V,W,X,Y,Z"
            +:+ String JsString.LF EmptyString)%string.
Proof.
  intros text numberToCharacter.
  assert (ColumnHeader.countOccurrences 40 text ","
            (DSVEditor.guessRowDelimeter text) = Some 27) as Hcount by by_vm.
  split; [exact Hcount|].
  by rewrite (proj1 (buildColHeader_names numberToCharacter 40 text "," 27
                       Hcount)).
Defined.

(** X7 at work. The flag raised twice, lowered and raised again on a title of
    class [jp-Title]. *)
Lemma title_class_follows_dirty_witness :
  JsText.includes "jp-Title" Title.DIRTY_CLASS = false
  ∧ Title.className
      (foldl (λ w d, Title.set_dirty d w)
         {| Title.dirty := false; Title.className := "jp-Title" |}
         [true; true; false; true])
    = "jp-Titlejp-mod-dirty"%string.
Proof.
  assert (JsText.includes "jp-Title" Title.DIRTY_CLASS = false) as Hbase
    by by_vm.
  split; [exact Hbase|].
  destruct (title_class_follows_dirty "jp-Title" [true; true; false; true]
              Hbase) as [Hflag ->].
  by rewrite Hflag.
Defined.

(** X11 at work. A row is inserted, the file is saved, and the insertion is
    undone: the row map is back at three rows, and the flag is still down. *)
Lemma undo_redo_keep_dirty_witness :
  ∃ e e',
    DSVEditor.session Scenario.model
      [DSVEditor.Select [Scenario.cells 1 0 1 0];
       DSVEditor.Command Types.InsertRowsAbove;
       DSVEditor.Command Types.Save] = Some e
    ∧ DSVEditor.onCommand Types.Undo e = Some e'
    ∧ Litestore.rowMap (Litestore.record (DSVEditor.litestore e))
      = [0; 3; 1; 2]
    ∧ Litestore.rowMap (Litestore.record (DSVEditor.litestore e'))
      = [0; 1; 2]
    ∧ DSVEditor.litestore e' = Litestore.undo (DSVEditor.litestore e)
    ∧ DSVEditor.dirty e = false
    ∧ DSVEditor.dirty e' = false.
Proof.
  exists_value
    (DSVEditor.session Scenario.model
       [DSVEditor.Select [Scenario.cells 1 0 1 0];
        DSVEditor.Command Types.InsertRowsAbove;
        DSVEditor.Command Types.Save]).
  match goal with
  | |- ∃ e', _ ∧ ?c = _ ∧ _ => exists_value c
  end.
  match goal with
  | |- _ ∧ ?c = Some ?e' ∧ _ =>
      assert (c = Some e') as Hundo by by_vm;
      destruct (undo_redo_keep_dirty Types.Undo _ _ (or_introl eq_refl)
                  Hundo) as [Hdirty Hstore]
  end.
  rewrite decide_False in Hstore by (vm_compute; lia).
  split; [by_vm|]. split; [exact Hundo|]. split; [by_vm|]. split; [by_vm|].
  split; [exact Hstore|]. split; [by_vm|]. rewrite Hdirty. by_vm.
Defined.

(** X12 at work. A row is inserted and the insertion is undone: the flag stays
    up. *)
Lemma dirty_lowered_only_by_save_witness :
  ∃ e e',
    DSVEditor.session Scenario.model
      [DSVEditor.Select [Scenario.cells 1 0 1 0];
       DSVEditor.Command Types.InsertRowsAbove] = Some e
    ∧ DSVEditor.perform (DSVEditor.Command Types.Undo) e = Some e'
    ∧ DSVEditor.dirty e = true
    ∧ DSVEditor.dirty e' = true.
Proof.
  exists_value
    (DSVEditor.session Scenario.model
       [DSVEditor.Select [Scenario.cells 1 0 1 0];
        DSVEditor.Command Types.InsertRowsAbove]).
  match goal with
  | |- ∃ e', _ ∧ ?c = _ ∧ _ => exists_value c
  end.
  match goal with
  | |- _ ∧ ?c = Some ?e' ∧ _ =>
      assert (c = Some e') as Hundo by by_vm
  end.
  split; [by_vm|]. split; [exact Hundo|]. split; [by_vm|].
  eapply (dirty_lowered_only_by_save (DSVEditor.Command Types.Undo));
    [discriminate | exact Hundo | by_vm].
Defined.

(** X13 at work. Rows 1 and 2 are selected from the bottom up and two rows are
    inserted below them: the selection is on rows 3 and 4, the inserted ones. *)
Lemma insert_selects_inserted_witness :
  ∃ e e',
    DSVEditor.session Scenario.model
      [DSVEditor.Select [Scenario.cells 2 0 1 0]] = Some e
    ∧ DSVEditor.onCommand Types.InsertRowsBelow e = Some e'
    ∧ DSVEditor.selections e' = [Scenario.cells 3 0 4 0].
Proof.
  exists_value
    (DSVEditor.session Scenario.model
       [DSVEditor.Select [Scenario.cells 2 0 1 0]]).
  match goal with
  | |- ∃ e', _ ∧ ?c = _ ∧ _ => exists_value c
  end.
  match goal with
  | |- _ ∧ DSVEditor.onCommand _ ?e = Some ?e' ∧ _ =>
      assert (DSVEditor.onCommand Types.InsertRowsBelow e = Some e')
        as Hrun by by_vm;
      pose proof (proj1 (insert_selects_inserted e e'
                           (Scenario.cells 2 0 1 0) true eq_refl)
                    ltac:(intros Hnone;
                           apply (f_equal (λ o, bool_decide (is_Some o)))
                             in Hnone;
                           vm_compute in Hnone; discriminate Hnone) Hrun) as Hsel
  end.
  split; [by_vm|]. split; [exact Hrun|]. rewrite Hsel. by_vm.
Defined.

(** ** The paste event and the event count, run *)

(** C7, where the code leaves the specification: the cell in the middle is
    copied, the first cell is selected and the last cell is selected besides,
    which makes it the current selection.  The paste event writes at the
    first cell, the top-left cell of the first selection; the paste command
    writes at the last cell, the top-left cell of the current selection. *)
Lemma paste_event_starts_at_first_selection :
  ∃ e e1 e2,
    DSVEditor.session Scenario.model
      [DSVEditor.Select [Scenario.cells 1 1 1 1];
       DSVEditor.Command Types.CopyCells;
       DSVEditor.Select [Scenario.cells 0 0 0 0; Scenario.cells 2 2 2 2]]
    = Some e
    ∧ DSVEditor.getSelectedRange e = Some (Scenario.cells 0 0 0 0)
    ∧ DSVEditor.currentSelection e = Some (Scenario.cells 2 2 2 2)
    ∧ DSVEditor.handlePaste "p" e = Some e1
    ∧ last (DSVEditor.log e1) = Some (DSVEditor.Committed None)
    ∧ Litestore.valueMap (Litestore.record (DSVEditor.litestore e1))
        !! SpecModel.cellKey 0 0 = Some "p"%string
    ∧ Litestore.valueMap (Litestore.record (DSVEditor.litestore e1))
        !! SpecModel.cellKey 2 2 = None
    ∧ DSVEditor.onCommand Types.PasteCells e = Some e2
    ∧ Litestore.valueMap (Litestore.record (DSVEditor.litestore e2))
        !! SpecModel.cellKey 2 2 = Some "2"%string
    ∧ Litestore.valueMap (Litestore.record (DSVEditor.litestore e2))
        !! SpecModel.cellKey 0 0 = None.
Proof.
  exists_value
    (DSVEditor.session Scenario.model
       [DSVEditor.Select [Scenario.cells 1 1 1 1];
        DSVEditor.Command Types.CopyCells;
        DSVEditor.Select [Scenario.cells 0 0 0 0; Scenario.cells 2 2 2 2]]).
  match goal with
  | |- ∃ e1 e2, _ ∧ _ ∧ _ ∧ ?c = _ ∧ _ => exists_value c
  end.
  match goal with
  | |- ∃ e2, _ ∧ _ ∧ _ ∧ _ ∧ _ ∧ _ ∧ _ ∧ ?c = _ ∧ _ => exists_value c
  end.
  split_and!; by_vm.
Qed.


